(** * Quote-request server (server.js): shallow embedding and properties

    The Express handlers of [server.js] are embedded as computations in a
    small state-and-exception monad over a [World] that holds the JSON data
    file, the console and the mails handed to the notifier.  Values that
    the handlers obtain from their environment (the uuid, the clock, whether
    the disk accepts a write) are passed in an [Env] record, one per request.

    JavaScript strings are sequences of UTF-16 code units, here [list N].
    Functions of the validator library and the built-in date parser are not
    part of the repository; they are the fields of the classes
    [ValidatorLib] and [DateLib]; the way in which a write of the data file
    fails is the field of the class [FileSystem].  Request fields and stored
    records are typed: every field that is present holds a string.  The rate
    limiters in front of the routes and the static routes are outside the
    embedding. *)

From stdpp Require Import base decidable option numbers list strings.
From Stdlib Require Import Sorting.Sorted.

Open Scope N_scope.

(** ** JavaScript strings *)

Abbreviation jstring := (list N).

(** A source literal, as its code units. *)
Definition js (s : string) : jstring :=
  (λ a, Ascii.N_of_ascii a) <$> String.list_ascii_of_string s.

(** The class [\s] of JavaScript regular expressions (white space and
    line terminators). *)
Definition is_space (c : N) : bool :=
  ((9 <=? c) && (c <=? 13)) || (c =? 32) || (c =? 160) || (c =? 0x1680)
  || ((0x2000 <=? c) && (c <=? 0x200a)) || (c =? 0x2028) || (c =? 0x2029)
  || (c =? 0x202f) || (c =? 0x205f) || (c =? 0x3000) || (c =? 0xfeff).

(** The class [[a-zA-Z]]. *)
Definition is_letter (c : N) : bool :=
  ((65 <=? c) && (c <=? 90)) || ((97 <=? c) && (c <=? 122)).

Fixpoint ltrim (s : jstring) : jstring :=
  match s with
  | c :: s' => if is_space c then ltrim s' else s
  | [] => []
  end.

Definition rtrim (s : jstring) : jstring := reverse (ltrim (reverse s)).

(** The sanitizer [.trim()]: strips [\s] characters from both ends. *)
Definition trim (s : jstring) : jstring := rtrim (ltrim s).

(** [.matches(/^[a-zA-Z\s]+$/)]: one or more characters, all of them
    letters or [\s]. *)
Definition matches_name (s : jstring) : bool :=
  negb (bool_decide (s = [])) && forallb (λ c, is_letter c || is_space c) s.

(** [.isIn([...])] *)
Definition isIn (allowed : list jstring) (s : jstring) : bool :=
  bool_decide (s ∈ allowed).

(** JavaScript truthiness of an optional string: [undefined] and the empty
    string are falsy. *)
Definition truthy (v : option jstring) : bool :=
  match v with
  | Some s => negb (bool_decide (s = []))
  | None => false
  end.

(** ** Library interfaces *)

(** The validator library behind express-validator.  [str_len] is the
    character count that [isLength] compares with its bounds. *)
Class ValidatorLib := {
  isEmail : jstring → bool;
  normalizeEmail : jstring → jstring;
  isMobilePhone : jstring → bool;
  str_len : jstring → nat
}.

(** [new Date(s).getTime()] for a string [s]; [None] is [NaN]
    (Invalid Date). *)
Class DateLib := { Date_parse : jstring → option Z }.

Definition isLength `{ValidatorLib} (min : nat) (max : option nat) (s : jstring) : bool :=
  bool_decide (min ≤ str_len s)%nat
  && match max with
     | Some m => bool_decide (str_len s ≤ m)%nat
     | None => true
     end.

(** ** Data model *)

Record Quote := mkQuote {
  id : jstring;
  name : jstring;
  email : jstring;
  phone : jstring;
  company : jstring;
  projectType : jstring;
  budget : jstring;
  timeline : jstring;
  description : jstring;
  status : jstring;
  createdAt : jstring;
  updatedAt : jstring
}.

Global Instance Quote_eq_dec : EqDecision Quote.
Proof. solve_decision. Defined.

(** [req.body] of a submission.  A field that is absent is read by the
    validators as the empty string; only [company] is declared optional. *)
Record ReqBody := mkBody {
  body_name : jstring;
  body_email : jstring;
  body_phone : jstring;
  body_company : option jstring;
  body_projectType : jstring;
  body_budget : jstring;
  body_timeline : jstring;
  body_description : jstring
}.

(** [req.query] of the list route. *)
Record Query := mkQuery {
  query_status : option jstring;
  query_projectType : option jstring;
  query_sortBy : option jstring;
  query_order : option jstring
}.

Record ValidationError := mkError { path : string; msg : string }.

Record Stats := mkStats {
  stats_total : nat;
  stats_new : nat;
  stats_reviewed : nat;
  stats_contacted : nat;
  stats_quoted : nat;
  stats_accepted : nat;
  stats_rejected : nat
}.

(** The JSON bodies the handlers send. *)
Inductive Payload :=
  | PValidation (message : string) (errors : list ValidationError)
  | PMessage (success : bool) (message : string)
  | PCreated (message : string) (new_id : jstring)
  | PList (data : list Quote) (total : nat)
  | PQuote (data : Quote)
  | PUpdated (message : string) (data : Quote)
  | PStats (data : Stats).

Record Response := mkResponse { code : nat; payload : Payload }.

(** ** The world *)

(** What [fs.readJsonSync(DATA_FILE)] finds: an array of records, or a
    file that cannot be read or parsed.  A file that parses to anything but
    an array of records is outside the model. *)
Inductive FileState :=
  | Readable (quotes : list Quote)
  | Unreadable.

(** How a write of the data file can fail.  [fs.writeJsonSync] opens the
    file, which empties it, writes the text and closes the file: a write
    refused at the opening leaves the file as it was, a write that fails
    while the text is written leaves an empty file or a part of the text,
    which cannot be parsed, and a write that fails at the closing leaves the
    whole text. *)
Inductive WriteFault :=
  | RefusedAtOpen
  | FailedWhileWriting
  | FailedAtClose.

(** The file system under the server: the way in which its writes fail,
    when they fail. *)
Class FileSystem := { write_fault : WriteFault }.

(** The data file after a write of [quotes] that threw. *)
Definition after_failed_write `{FileSystem} (file : FileState)
    (quotes : list Quote) : FileState :=
  match write_fault with
  | RefusedAtOpen => file
  | FailedWhileWriting => Unreadable
  | FailedAtClose => Readable quotes
  end.

Inductive Exn := ReadError | WriteError.

Record World := mkWorld {
  data_file : FileState;
  console : list string;
  outbox : list Quote
}.

(** What one request reads from its environment: the result of [uuidv4()],
    of the first and second [new Date().toISOString()], and whether the
    disk accepts a write. *)
Record Env := mkEnv {
  env_uuid : jstring;
  env_now1 : jstring;
  env_now2 : jstring;
  env_write_ok : bool
}.

(** ** State and exception monad *)

Inductive Outcome (A : Type) :=
  | Ret (a : A)
  | Throw (e : Exn).
Arguments Ret {A} a.
Arguments Throw {A} e.

Definition M (A : Type) : Type := World → Outcome A * World.

Global Instance M_ret : MRet M := λ A a w, (Ret a, w).

Global Instance M_bind : MBind M :=
  λ A B k m w, match m w with
               | (Ret a, w') => k a w'
               | (Throw e, w') => (Throw e, w')
               end.

(** [try { m } catch (error) { h error }] *)
Definition try_catch {A} (m : M A) (h : Exn → M A) : M A :=
  λ w, match m w with
       | (Ret a, w') => (Ret a, w')
       | (Throw e, w') => h e w'
       end.

(** *** Primitive effects *)

Definition readJsonSync : M (list Quote) :=
  λ w, match data_file w with
       | Readable quotes => (Ret quotes, w)
       | Unreadable => (Throw ReadError, w)
       end.

(** A write either replaces the whole file or throws; a write that throws
    leaves of the file what the file system's way of failing leaves. *)
Definition writeJsonSync `{FileSystem} (env : Env) (quotes : list Quote) : M unit :=
  λ w, if env_write_ok env
       then (Ret (), mkWorld (Readable quotes) (console w) (outbox w))
       else (Throw WriteError,
             mkWorld (after_failed_write (data_file w) quotes) (console w)
               (outbox w)).

Definition console_error (line : string) : M unit :=
  λ w, (Ret (), mkWorld (data_file w) (console w ++ [line]) (outbox w)).

(** [sendQuoteNotification] is started and not awaited: the record is
    handed to the mail transport, whose result only reaches the console. *)
Definition sendQuoteNotification (quoteData : Quote) : M unit :=
  λ w, (Ret (), mkWorld (data_file w) (console w) (outbox w ++ [quoteData])).

(** ** Helper functions of the server *)

Definition readQuotes : M (list Quote) :=
  try_catch readJsonSync
    (λ _, console_error "Error reading quotes file:";; mret []).

Definition writeQuotes `{FileSystem} (env : Env) (quotes : list Quote) : M bool :=
  try_catch (writeJsonSync env quotes;; mret true)
    (λ _, console_error "Error writing quotes file:";; mret false).

(** ** Validation middleware *)

(** An express-validator chain is a sequence of sanitizers, which replace
    the value of the field in [req.body], and validators, which record an
    error carrying their [withMessage] text when the current value fails. *)
Inductive ChainItem :=
  | Sanitizer (f : jstring → jstring)
  | Validator (p : jstring → bool) (message : string).

Fixpoint run_chain (field : string) (items : list ChainItem) (value : jstring)
  : jstring * list ValidationError :=
  match items with
  | [] => (value, [])
  | Sanitizer f :: items' => run_chain field items' (f value)
  | Validator p message :: items' =>
      let '(value', errors) := run_chain field items' value in
      (value', if p value then errors else mkError field message :: errors)
  end.

(** [.optional()]: the chain is skipped when the field is [undefined]. *)
Definition run_optional (field : string) (items : list ChainItem)
    (value : option jstring) : option jstring * list ValidationError :=
  match value with
  | Some v => let '(v', errors) := run_chain field items v in (Some v', errors)
  | None => (None, [])
  end.

Definition project_types : list jstring :=
  js <$> ["website"; "ecommerce"; "webapp"; "mobile"; "other"]%string.
Definition budgets : list jstring :=
  js <$> ["under-5k"; "5k-10k"; "10k-25k"; "25k-50k"; "over-50k"]%string.
Definition timelines : list jstring :=
  js <$> ["asap"; "1-month"; "2-3-months"; "3-6-months"; "flexible"]%string.

Section Validation.
Context `{ValidatorLib}.

Definition chain_name : list ChainItem :=
  [ Sanitizer trim;
    Validator (isLength 2 (Some 100%nat)) "Name must be between 2 and 100 characters";
    Validator matches_name "Name can only contain letters and spaces" ].

Definition chain_email : list ChainItem :=
  [ Sanitizer trim;
    Validator isEmail "Please provide a valid email address";
    Sanitizer normalizeEmail ].

Definition chain_phone : list ChainItem :=
  [ Sanitizer trim;
    Validator isMobilePhone "Please provide a valid phone number" ].

Definition chain_company : list ChainItem :=
  [ Sanitizer trim;
    Validator (isLength 0 (Some 100%nat)) "Company name must be less than 100 characters" ].

Definition chain_projectType : list ChainItem :=
  [ Sanitizer trim;
    Validator (isIn project_types) "Please select a valid project type" ].

Definition chain_budget : list ChainItem :=
  [ Sanitizer trim;
    Validator (isIn budgets) "Please select a valid budget range" ].

Definition chain_timeline : list ChainItem :=
  [ Sanitizer trim;
    Validator (isIn timelines) "Please select a valid timeline" ].

Definition chain_description : list ChainItem :=
  [ Sanitizer trim;
    Validator (isLength 10 (Some 1000%nat)) "Description must be between 10 and 1000 characters" ].

(** [validateQuote] followed by [validationResult(req)]: the sanitized
    body and the errors of all chains, in the order of the chains. *)
Definition validateQuote (body : ReqBody) : ReqBody * list ValidationError :=
  let '(v_name, e_name) := run_chain "name" chain_name (body_name body) in
  let '(v_email, e_email) := run_chain "email" chain_email (body_email body) in
  let '(v_phone, e_phone) := run_chain "phone" chain_phone (body_phone body) in
  let '(v_company, e_company) :=
    run_optional "company" chain_company (body_company body) in
  let '(v_projectType, e_projectType) :=
    run_chain "projectType" chain_projectType (body_projectType body) in
  let '(v_budget, e_budget) := run_chain "budget" chain_budget (body_budget body) in
  let '(v_timeline, e_timeline) :=
    run_chain "timeline" chain_timeline (body_timeline body) in
  let '(v_description, e_description) :=
    run_chain "description" chain_description (body_description body) in
  (mkBody v_name v_email v_phone v_company v_projectType v_budget v_timeline
     v_description,
   e_name ++ e_email ++ e_phone ++ e_company ++ e_projectType ++ e_budget
     ++ e_timeline ++ e_description).
End Validation.

(** ** Array helpers *)

(** [quotes.findIndex(q => q.id === key)] together with the element found;
    [None] is the index [-1]. *)
Definition find_by_id (key : jstring) (quotes : list Quote) : option (nat * Quote) :=
  list_find (λ q, id q = key) quotes.

Definition set_status (v : jstring) (q : Quote) : Quote :=
  mkQuote (id q) (name q) (email q) (phone q) (company q) (projectType q)
    (budget q) (timeline q) (description q) v (createdAt q) (updatedAt q).

Definition set_updatedAt (v : jstring) (q : Quote) : Quote :=
  mkQuote (id q) (name q) (email q) (phone q) (company q) (projectType q)
    (budget q) (timeline q) (description q) (status q) (createdAt q) v.

(** [a[key]]: the value of the property [key] of a record, [None] for
    [undefined].  The keys that a record inherits from [Object.prototype]
    hold functions or objects, which are no dates either. *)
Definition property (key : jstring) (q : Quote) : option jstring :=
  if bool_decide (key = js "id") then Some (id q)
  else if bool_decide (key = js "name") then Some (name q)
  else if bool_decide (key = js "email") then Some (email q)
  else if bool_decide (key = js "phone") then Some (phone q)
  else if bool_decide (key = js "company") then Some (company q)
  else if bool_decide (key = js "projectType") then Some (projectType q)
  else if bool_decide (key = js "budget") then Some (budget q)
  else if bool_decide (key = js "timeline") then Some (timeline q)
  else if bool_decide (key = js "description") then Some (description q)
  else if bool_decide (key = js "status") then Some (status q)
  else if bool_decide (key = js "createdAt") then Some (createdAt q)
  else if bool_decide (key = js "updatedAt") then Some (updatedAt q)
  else None.

(** [new Date(v).getTime()]; [new Date(undefined)] is an Invalid Date. *)
Definition new_Date `{DateLib} (v : option jstring) : option Z :=
  v ≫= Date_parse.

(** Subtraction of two dates; [NaN] if either is invalid.  Only the sign of
    the result is used, and rounding to a double keeps the sign. *)
Definition date_minus (x y : option Z) : option Z :=
  a ← x; b ← y; Some (a - b)%Z.

(** [Array.prototype.sort(comparefn)]: a comparator result that is [NaN]
    counts as [+0], and the sort is stable.  For a consistent comparator
    the result is fixed by these two rules; it is computed here by a stable
    insertion sort.  For an inconsistent comparator, as one that answers
    [NaN] for some pairs and a sign for others, the order is left to the
    engine and is not the one computed here: the properties that speak of
    the order assume dates that are all valid or all invalid. *)
Section Sort.
Context {A : Type} (comparefn : A → A → option Z).

Definition sort_compare (x y : A) : Z := default 0%Z (comparefn x y).

Fixpoint sort_insert (x : A) (l : list A) : list A :=
  match l with
  | [] => [x]
  | y :: l' =>
      if (sort_compare x y <=? 0)%Z then x :: y :: l'
      else y :: sort_insert x l'
  end.

Definition Array_sort (l : list A) : list A := foldr sort_insert [] l.
End Sort.

(** ** API routes *)

Definition valid_statuses : list jstring :=
  js <$> ["new"; "reviewed"; "contacted"; "quoted"; "accepted"; "rejected"]%string.

(** [list.includes(v)] for an optional string [v]. *)
Definition includes (l : list jstring) (v : option jstring) : bool :=
  match v with
  | Some s => bool_decide (s ∈ l)
  | None => false
  end.

(** [app.post('/api/quotes', ...)] *)
Definition post_quotes `{ValidatorLib} `{FileSystem} (env : Env)
    (req_body : ReqBody) : M Response :=
  let '(body, errors) := validateQuote req_body in
  match errors with
  | _ :: _ => mret (mkResponse 400 (PValidation "Validation failed" errors))
  | [] =>
      let newQuote :=
        mkQuote (env_uuid env) (body_name body) (body_email body)
          (body_phone body) (default [] (body_company body))
          (body_projectType body) (body_budget body) (body_timeline body)
          (body_description body) (js "new") (env_now1 env) (env_now2 env) in
      quotes ← readQuotes;
      let quotes := quotes ++ [newQuote] in
      saved ← writeQuotes env quotes;
      if saved : bool then
        sendQuoteNotification newQuote;;
        mret (mkResponse 201
                (PCreated "Quote request submitted successfully" (id newQuote)))
      else
        mret (mkResponse 500 (PMessage false "Failed to save quote request"))
  end.

Section ListRoute.
Context `{DateLib}.

Definition compareFn (sortBy order : jstring) (a b : Quote) : option Z :=
  let aValue := property sortBy a in
  let bValue := property sortBy b in
  if bool_decide (order = js "desc")
  then date_minus (new_Date bValue) (new_Date aValue)
  else date_minus (new_Date aValue) (new_Date bValue).

(** The filters and the sort of [app.get('/api/quotes')]. *)
Definition list_quotes (query : Query) (quotes : list Quote) : list Quote :=
  let status_ := query_status query in
  let projectType_ := query_projectType query in
  let sortBy := default (js "createdAt") (query_sortBy query) in
  let order := default (js "desc") (query_order query) in
  let filteredQuotes := quotes in
  let filteredQuotes :=
    if truthy status_ && negb (bool_decide (status_ = Some (js "all")))
    then filter (λ quote, Some (status quote) = status_) filteredQuotes
    else filteredQuotes in
  let filteredQuotes :=
    if truthy projectType_ && negb (bool_decide (projectType_ = Some (js "all")))
    then filter (λ quote, Some (projectType quote) = projectType_) filteredQuotes
    else filteredQuotes in
  Array_sort (compareFn sortBy order) filteredQuotes.

(** [app.get('/api/quotes')] *)
Definition get_quotes (query : Query) : M Response :=
  quotes ← readQuotes;
  let filteredQuotes := list_quotes query quotes in
  mret (mkResponse 200 (PList filteredQuotes (length filteredQuotes))).
End ListRoute.

(** [app.get('/api/quotes/:id')] *)
Definition get_quote (req_id : jstring) : M Response :=
  quotes ← readQuotes;
  match find_by_id req_id quotes with
  | None => mret (mkResponse 404 (PMessage false "Quote not found"))
  | Some (_, quote) => mret (mkResponse 200 (PQuote quote))
  end.

(** [app.patch('/api/quotes/:id/status')] *)
Definition patch_status `{FileSystem} (env : Env) (req_id : jstring)
    (status_ : option jstring) : M Response :=
  if negb (includes valid_statuses status_)
  then mret (mkResponse 400 (PMessage false "Invalid status"))
  else
    quotes ← readQuotes;
    match find_by_id req_id quotes with
    | None => mret (mkResponse 404 (PMessage false "Quote not found"))
    | Some (quoteIndex, quote) =>
        let quote := set_status (default [] status_) quote in
        let quote := set_updatedAt (env_now1 env) quote in
        let quotes := <[quoteIndex := quote]> quotes in
        saved ← writeQuotes env quotes;
        if saved : bool then
          mret (mkResponse 200
                  (PUpdated "Quote status updated successfully" quote))
        else
          mret (mkResponse 500 (PMessage false "Failed to update quote status"))
    end.

(** [app.delete('/api/quotes/:id')] *)
Definition delete_quote `{FileSystem} (env : Env) (req_id : jstring) : M Response :=
  quotes ← readQuotes;
  match find_by_id req_id quotes with
  | None => mret (mkResponse 404 (PMessage false "Quote not found"))
  | Some (quoteIndex, _) =>
      let quotes := delete quoteIndex quotes in
      saved ← writeQuotes env quotes;
      if saved : bool then
        mret (mkResponse 200 (PMessage true "Quote deleted successfully"))
      else
        mret (mkResponse 500 (PMessage false "Failed to delete quote"))
  end.

Definition count_status (s : string) (quotes : list Quote) : nat :=
  length (filter (λ q, status q = js s) quotes).

(** [app.get('/api/stats')] *)
Definition get_stats : M Response :=
  quotes ← readQuotes;
  let stats :=
    mkStats (length quotes) (count_status "new" quotes)
      (count_status "reviewed" quotes) (count_status "contacted" quotes)
      (count_status "quoted" quotes) (count_status "accepted" quotes)
      (count_status "rejected" quotes) in
  mret (mkResponse 200 (PStats stats)).

(** ** Requests and runs of the server *)

Inductive Request :=
  | Create (req_body : ReqBody)
  | List (query : Query)
  | Get (req_id : jstring)
  | UpdateStatus (req_id : jstring) (status_ : option jstring)
  | Delete (req_id : jstring)
  | GetStats.

Section Server.
Context `{ValidatorLib} `{DateLib} `{FileSystem}.

Definition handle (env : Env) (req : Request) : M Response :=
  match req with
  | Create req_body => post_quotes env req_body
  | List query => get_quotes query
  | Get req_id => get_quote req_id
  | UpdateStatus req_id status_ => patch_status env req_id status_
  | Delete req_id => delete_quote env req_id
  | GetStats => get_stats
  end.

(** The world after a sequence of requests, each with its environment. *)
Fixpoint run (reqs : list (Env * Request)) (w : World) : World :=
  match reqs with
  | [] => w
  | (env, req) :: reqs' => run reqs' (handle env req w).2
  end.
End Server.

(** The server creates the data file with an empty array when it does not
    exist. *)
Definition initial_world : World := mkWorld (Readable []) [] [].

(** The collection every handler works on: what [readQuotes] returns. *)
Definition stored (w : World) : list Quote :=
  match data_file w with
  | Readable quotes => quotes
  | Unreadable => []
  end.

(** The world after [readQuotes]: a failed read leaves a line on the
    console. *)
Definition after_read (w : World) : World :=
  match data_file w with
  | Readable _ => w
  | Unreadable =>
      mkWorld Unreadable (console w ++ ["Error reading quotes file:"%string]) (outbox w)
  end.

(** ** File systems *)

(** A file system whose failing writes are refused at the opening, and one
    whose failing writes fail while the text is written. *)
Definition refusing_disk : FileSystem := {| write_fault := RefusedAtOpen |}.
Definition truncating_disk : FileSystem := {| write_fault := FailedWhileWriting |}.

(** The properties below are stated for [refusing_disk], where a failed
    write leaves the file as it was, unless they bind a file system of their
    own. *)
Global Existing Instance refusing_disk.

(** ** Vocabulary of the properties *)

(** A filter parameter that constrains nothing: omitted, empty, or the
    sentinel [all]. *)
Definition no_constraint (v : option jstring) : Prop :=
  v = None ∨ v = Some [] ∨ v = Some (js "all").

Definition satisfies (status_ projectType_ : option jstring) (q : Quote) : Prop :=
  (no_constraint status_ ∨ status_ = Some (status q))
  ∧ (no_constraint projectType_ ∨ projectType_ = Some (projectType q)).

Global Instance no_constraint_dec v : Decision (no_constraint v).
Proof. unfold no_constraint. apply _. Defined.

Global Instance satisfies_dec s p q : Decision (satisfies s p q).
Proof. unfold satisfies. apply _. Defined.

(** The names of the properties of a stored record. *)
Definition field_names : list jstring :=
  js <$> ["id"; "name"; "email"; "phone"; "company"; "projectType"; "budget";
          "timeline"; "description"; "status"; "createdAt"; "updatedAt"]%string.

(** The time value of [createdAt], when it is a valid date. *)
Definition created_time `{DateLib} (q : Quote) : option Z :=
  Date_parse (createdAt q).

(** [createdAt] descending. *)
Definition newer_first `{DateLib} (a b : Quote) : Prop :=
  match created_time a, created_time b with
  | Some ta, Some tb => (tb ≤ ta)%Z
  | _, _ => False
  end.

(** Two records that agree on every field except [status] and
    [updatedAt]. *)
Definition same_but_status (q q' : Quote) : Prop :=
  id q = id q' ∧ name q = name q' ∧ email q = email q' ∧ phone q = phone q'
  ∧ company q = company q' ∧ projectType q = projectType q'
  ∧ budget q = budget q' ∧ timeline q = timeline q'
  ∧ description q = description q' ∧ createdAt q = createdAt q'.

(** The copy of a record that [UpdateStatus] stores: only [status] and
    [updatedAt] are overwritten. *)
Definition with_status (s now : jstring) (q : Quote) : Quote :=
  mkQuote (id q) (name q) (email q) (phone q) (company q) (projectType q)
    (budget q) (timeline q) (description q) s (createdAt q) now.

(** The record that [post_quotes] builds from a request body. *)
Definition new_quote `{ValidatorLib} (env : Env) (body : ReqBody) : Quote :=
  mkQuote (env_uuid env) (trim (body_name body))
    (normalizeEmail (trim (body_email body))) (trim (body_phone body))
    (default [] (trim <$> body_company body)) (trim (body_projectType body))
    (trim (body_budget body)) (trim (body_timeline body))
    (trim (body_description body)) (js "new") (env_now1 env) (env_now2 env).

(** ** Regular expressions *)

(** The fragment of JavaScript regular expressions that the scripts use,
    over code units, and its test by derivatives.  A pattern anchored by
    [^] and [$] without flags matches the whole string. *)
Inductive regex :=
  | Void
  | Eps
  | Class (p : N → bool)
  | Seq (r s : regex)
  | Alt (r s : regex)
  | Star (r : regex).

Fixpoint nullable (r : regex) : bool :=
  match r with
  | Void => false
  | Eps => true
  | Class _ => false
  | Seq r s => nullable r && nullable s
  | Alt r s => nullable r || nullable s
  | Star _ => true
  end.

Fixpoint deriv (c : N) (r : regex) : regex :=
  match r with
  | Void => Void
  | Eps => Void
  | Class p => if p c then Eps else Void
  | Seq r s =>
      if nullable r then Alt (Seq (deriv c r) s) (deriv c s)
      else Seq (deriv c r) s
  | Alt r s => Alt (deriv c r) (deriv c s)
  | Star r => Seq (deriv c r) (Star r)
  end.

Fixpoint regex_test (r : regex) (s : jstring) : bool :=
  match s with
  | [] => nullable r
  | c :: s' => regex_test (deriv c r) s'
  end.

(** [r+] *)
Definition Plus (r : regex) : regex := Seq r (Star r).

(** The strings a regular expression denotes. *)
Inductive lang : regex → jstring → Prop :=
  | lang_eps : lang Eps []
  | lang_class p c : p c = true → lang (Class p) [c]
  | lang_seq r s u v : lang r u → lang s v → lang (Seq r s) (u ++ v)
  | lang_alt_l r s u : lang r u → lang (Alt r s) u
  | lang_alt_r r s u : lang s u → lang (Alt r s) u
  | lang_star_nil r : lang (Star r) []
  | lang_star_cons r u v : lang r u → lang (Star r) v → lang (Star r) (u ++ v).

(** ** The form script *)

(** [[^\s@]] *)
Definition not_space_at (c : N) : bool := negb (is_space c || (c =? 64)).

(** [/^[^\s@]+@[^\s@]+\.[^\s@]+$/] *)
Definition emailRegex : regex :=
  Seq (Plus (Class not_space_at))
    (Seq (Class (λ c, c =? 64))
       (Seq (Plus (Class not_space_at))
          (Seq (Class (λ c, c =? 46)) (Plus (Class not_space_at))))).

(** What [formData.get] returns for the fields of the quote form; [None] is
    [null]. *)
Record FormData := mkForm {
  form_firstName : option jstring;
  form_lastName : option jstring;
  form_email : option jstring;
  form_phone : option jstring;
  form_company : option jstring;
  form_projectType : option jstring;
  form_budget : option jstring;
  form_timeline : option jstring;
  form_description : option jstring
}.

(** A value inside a template literal: [null] prints as ["null"]. *)
Definition template (v : option jstring) : jstring := default (js "null") v.

(** [v || d] for an optional string [v]. *)
Definition or_else (v : option jstring) (d : jstring) : jstring :=
  if truthy v then default [] v else d.

Inductive SubmitOutcome :=
  | ShowError (message : string)
  | Submit (quoteData : ReqBody).

(** The submit listener of the quote form up to the request it sends.  The
    built-in [String.prototype.trim] strips the same characters as [trim].
    When the checks pass, [email], [projectType] and [description] are
    strings. *)
Definition submit_form (formData : FormData) : SubmitOutcome :=
  let firstName := form_firstName formData in
  let lastName := form_lastName formData in
  let projectType_ := form_projectType formData in
  let name_ := trim (template firstName ++ js " " ++ template lastName) in
  let email_ := form_email formData in
  let phone_ := or_else (form_phone formData) [] in
  let company_ := or_else (form_company formData) [] in
  let budget_ := or_else (form_budget formData) (js "under-5k") in
  let timeline_ := or_else (form_timeline formData) (js "flexible") in
  let description_ := form_description formData in
  if negb (truthy firstName) || negb (truthy lastName) || negb (truthy email_)
     || negb (truthy projectType_) || negb (truthy description_)
  then ShowError "Please fill in all required fields."
  else if negb (regex_test emailRegex (default [] email_))
  then ShowError "Please enter a valid email address."
  else Submit (mkBody name_ (default [] email_) phone_ (Some company_)
                 (default [] projectType_) budget_ timeline_
                 (default [] description_)).

(** A form control as [validateField] sees it: its value, whether it has
    the attribute [required], whether its type is [email], and whether its
    class list holds [invalid] and [valid]. *)
Record Field := mkField {
  field_value : jstring;
  field_required : bool;
  field_is_email : bool;
  field_invalid : bool;
  field_valid : bool
}.

Definition mark_invalid (field : Field) : Field :=
  mkField (field_value field) (field_required field) (field_is_email field)
    true false.

Definition mark_valid (field : Field) : Field :=
  mkField (field_value field) (field_required field) (field_is_email field)
    false true.

(** [validateField(field)]: the result and the field afterwards. *)
Definition validateField (field : Field) : bool * Field :=
  let value := trim (field_value field) in
  let isRequired := field_required field in
  if isRequired && negb (truthy (Some value)) then (false, mark_invalid field)
  else if field_is_email field && truthy (Some value)
          && negb (regex_test emailRegex value)
  then (false, mark_invalid field)
  else if truthy (Some value) then (true, mark_valid field)
  else (true, field).

(** A string without surrogate code units; a query string carries such a
    value unchanged. *)
Definition plain (s : jstring) : Prop :=
  Forall (λ c, c < 0xD800 ∨ 0xDFFF < c) s.

(** The query that the server receives from [getQuoteRequests] for the
    filters of the admin panel, when the values are [plain]. *)
Definition client_param (v : jstring) : option jstring :=
  if truthy (Some v) && negb (bool_decide (v = js "all")) then Some v else None.

Definition client_query (status_ projectType_ : jstring) : Query :=
  mkQuery (client_param status_) (client_param projectType_) None None.

(** ** The admin panel script *)

(** The records of the panel are the ones the API returned. *)

(** The local filter of [applyFilters], used when the request fails. *)
Definition local_filter (status_ projectType_ : jstring) (quotes : list Quote)
  : list Quote :=
  filter (λ quote,
            (status_ = js "all" ∨ status quote = status_)
            ∧ (projectType_ = js "all" ∨ projectType quote = projectType_))
    quotes.

(** The order in which [renderQuotes] shows the rows: a copy of the array
    sorted by [new Date(b.timestamp) - new Date(a.timestamp)]. *)
Definition render_order `{DateLib} (filteredQuotes : list Quote) : list Quote :=
  Array_sort
    (λ a b, date_minus (new_Date (property (js "timestamp") b))
              (new_Date (property (js "timestamp") a)))
    filteredQuotes.

(** [v || d] for a number [v] that may be [undefined]: [0] is falsy. *)
Definition or_count (v : option nat) (d : nat) : nat :=
  match v with
  | Some (S n) => S n
  | _ => d
  end.

(** The four counters that [updateStats] writes into the dashboard. *)
Record Dashboard := mkDashboard {
  totalQuotes : nat;
  newQuotes : nat;
  inProgressQuotes : nat;
  completedQuotes : nat
}.

(** [updateStats] with the answer of [/api/stats]: the answer has no
    [inProgress] and no [completed]. *)
Definition updateStats (stats : Stats) (quotes : list Quote) : Dashboard :=
  mkDashboard
    (or_count (Some (stats_total stats)) (length quotes))
    (or_count (Some (stats_new stats)) (count_status "new" quotes))
    (or_count None (count_status "in-progress" quotes))
    (or_count None (count_status "completed" quotes)).

(** The last column of a row of [exportToCSV]: the description with every
    double quote (code unit 34) doubled, between two double quotes. *)
Definition csv_description (description_ : jstring) : jstring :=
  [34] ++ (description_ ≫= λ c, if c =? 34 then [34; 34] else [c]) ++ [34].

(** ** Vocabulary of the further properties *)

(** The stats that [get_stats] computes from a collection. *)
Definition stats_of (quotes : list Quote) : Stats :=
  mkStats (length quotes) (count_status "new" quotes)
    (count_status "reviewed" quotes) (count_status "contacted" quotes)
    (count_status "quoted" quotes) (count_status "accepted" quotes)
    (count_status "rejected" quotes).

(** The body with every field trimmed. *)
Definition trim_body (body : ReqBody) : ReqBody :=
  mkBody (trim (body_name body)) (trim (body_email body))
    (trim (body_phone body)) (trim <$> body_company body)
    (trim (body_projectType body)) (trim (body_budget body))
    (trim (body_timeline body)) (trim (body_description body)).

(** The rule that a field of a submission breaks, by the name of the
    field. *)
Definition field_fails `{ValidatorLib} (field : string) (body : ReqBody) : Prop :=
  if bool_decide (field = "name"%string) then
    isLength 2 (Some 100%nat) (trim (body_name body)) = false
    ∨ matches_name (trim (body_name body)) = false
  else if bool_decide (field = "email"%string) then
    isEmail (trim (body_email body)) = false
  else if bool_decide (field = "phone"%string) then
    isMobilePhone (trim (body_phone body)) = false
  else if bool_decide (field = "company"%string) then
    ∃ c, body_company body = Some c
         ∧ isLength 0 (Some 100%nat) (trim c) = false
  else if bool_decide (field = "projectType"%string) then
    trim (body_projectType body) ∉ project_types
  else if bool_decide (field = "budget"%string) then
    trim (body_budget body) ∉ budgets
  else if bool_decide (field = "timeline"%string) then
    trim (body_timeline body) ∉ timelines
  else if bool_decide (field = "description"%string) then
    isLength 10 (Some 1000%nat) (trim (body_description body)) = false
  else False.

(** Every Create of a run draws an id that the store does not hold at that
    moment. *)
Fixpoint fresh_ids `{ValidatorLib} `{DateLib}
    (reqs : list (Env * Request)) (w : World) : Prop :=
  match reqs with
  | [] => True
  | (env, req) :: reqs' =>
      (∀ body, req = Create body → env_uuid env ∉ id <$> stored w)
      ∧ fresh_ids reqs' (handle env req w).2
  end.

(** Every Create of a run reads a valid date from the clock. *)
Definition valid_clocks `{DateLib} (reqs : list (Env * Request)) : Prop :=
  Forall (λ '(env, req), ∀ body, req = Create body →
                          is_Some (Date_parse (env_now1 env))) reqs.

(** [createdAt] ascending. *)
Definition older_first `{DateLib} (a b : Quote) : Prop :=
  match created_time a, created_time b with
  | Some ta, Some tb => (ta ≤ tb)%Z
  | _, _ => False
  end.

(** ** Library instances for the examples *)

Definition is_digit (c : N) : bool := (48 <=? c) && (c <=? 57).

Definition lower (c : N) : N := if (65 <=? c) && (c <=? 90) then c + 32 else c.

Fixpoint after_at (s : jstring) : jstring :=
  match s with
  | [] => []
  | c :: s' => if c =? 64 then s' else after_at s'
  end.

(** An instance of the validator library for the examples.  On the
    addresses and phone numbers used there it answers as validator.js
    does. *)
Definition example_ValidatorLib : ValidatorLib := {|
  isEmail s :=
    bool_decide (length (filter (λ c, c = 64) s) = 1%nat)
    && forallb (λ c, (33 <=? c) && (c <=? 126)) s
    && bool_decide (46 ∈ after_at s);
  normalizeEmail s := lower <$> s;
  isMobilePhone s :=
    match s with
    | 43 :: ds => forallb is_digit ds && bool_decide (10 ≤ length ds ≤ 14)%nat
    | _ => false
    end;
  str_len := length
|}.

(** An instance of the date parser for the examples: the date-time format
    that [toISOString] writes, [YYYY-MM-DDTHH:mm:ss.sssZ]; every other
    string is reported as an invalid date. *)
Definition digit (c : N) : option Z :=
  if is_digit c then Some (Z.of_N c - 48)%Z else None.

Fixpoint number (acc : Z) (s : jstring) : option Z :=
  match s with
  | [] => Some acc
  | c :: s' => d ← digit c; number (10 * acc + d)%Z s'
  end.

Definition leap_year (y : Z) : bool :=
  ((y mod 4 =? 0) && negb (y mod 100 =? 0) || (y mod 400 =? 0))%Z.

Definition days_in_month (y m : Z) : Z :=
  (if m =? 2 then (if leap_year y then 29 else 28)
   else if (m =? 4) || (m =? 6) || (m =? 9) || (m =? 11) then 30 else 31)%Z.

(** Days from 1970-01-01 to the given civil date. *)
Definition days_from_civil (y m d : Z) : Z :=
  (let y' := if m <=? 2 then y - 1 else y in
   let era := y' / 400 in
   let yoe := y' - era * 400 in
   let doy := (153 * (if 2 <? m then m - 3 else m + 9) + 2) / 5 + d - 1 in
   let doe := yoe * 365 + yoe / 4 - yoe / 100 + doy in
   era * 146097 + doe - 719468)%Z.

Definition parse_iso (s : jstring) : option Z :=
  match s with
  | [y1; y2; y3; y4; 45; m1; m2; 45; d1; d2; 84; h1; h2; 58; n1; n2; 58;
     s1; s2; 46; f1; f2; f3; 90] =>
      y ← number 0 [y1; y2; y3; y4];
      m ← number 0 [m1; m2];
      d ← number 0 [d1; d2];
      h ← number 0 [h1; h2];
      n ← number 0 [n1; n2];
      sec ← number 0 [s1; s2];
      ms ← number 0 [f1; f2; f3];
      if ((1 <=? m) && (m <=? 12) && (1 <=? d) && (d <=? days_in_month y m)
          && (h <=? 23) && (n <=? 59) && (sec <=? 59))%Z
      then Some ((((days_from_civil y m d * 24 + h) * 60 + n) * 60 + sec) * 1000 + ms)%Z
      else None
  | _ => None
  end.

Definition example_DateLib : DateLib := {| Date_parse := parse_iso |}.

(** Sample data of the examples. *)
Definition jane : ReqBody :=
  mkBody (js " Jane Roe") (js "jane@x.com") (js "+12025550143") None
    (js "website") (js "under-5k") (js "flexible")
    (js "Need a 5-page brochure site for my bakery").

Definition sample_env (uuid : string) (now : string) (ok : bool) : Env :=
  mkEnv (js uuid) (js now) (js now) ok.

Definition sample_quote (uuid status_ created : string) : Quote :=
  mkQuote (js uuid) (js "Jane Roe") (js "jane@x.com") (js "+12025550143") []
    (js "website") (js "under-5k") (js "flexible")
    (js "Need a 5-page brochure site for my bakery") (js status_) (js created)
    (js created).

Definition sample_world : World :=
  mkWorld
    (Readable [ sample_quote "a" "new" "2024-01-15T10:30:00.000Z";
                sample_quote "b" "reviewed" "2024-03-01T08:00:00.000Z";
                sample_quote "c" "new" "2024-02-10T17:45:12.500Z" ])
    [] [].

Definition sample_requests : list (Env * Request) :=
  [ (sample_env "u1" "2024-04-01T09:00:00.000Z" true, Create jane);
    (sample_env "" "2024-04-02T09:00:00.000Z" true,
     UpdateStatus (js "u1") (Some (js "quoted")));
    (sample_env "" "2024-04-03T09:00:00.000Z" true, Delete (js "a")) ].

Definition sample_form : FormData :=
  mkForm (Some (js "Jane")) (Some (js "Roe ")) (Some (js "jane@x.com"))
    (Some []) None (Some (js "website")) (Some []) None
    (Some (js "Need a 5-page brochure site for my bakery")).

Definition sample_form_body : ReqBody :=
  mkBody (js "Jane Roe") (js "jane@x.com") [] (Some []) (js "website")
    (js "under-5k") (js "flexible")
    (js "Need a 5-page brochure site for my bakery").

Definition unreadable_world : World := mkWorld Unreadable [] [].

Definition same_day_quotes : list Quote :=
  [ sample_quote "a" "new" "2024-01-15T10:30:00.000Z";
    sample_quote "b" "reviewed" "2024-03-01T08:00:00.000Z";
    sample_quote "c" "new" "2024-01-15T10:30:00.000Z" ].

(** * Properties *)

(** ** Running the monad *)

Lemma bind_run {A B} (m : M A) (k : A → M B) w a w' :
  m w = (Ret a, w') → (m ≫= k) w = k a w'.
Proof. intros Hm. unfold mbind, M_bind. by rewrite Hm. Qed.

Lemma readQuotes_run w : readQuotes w = (Ret (stored w), after_read w).
Proof.
  unfold readQuotes, try_catch, readJsonSync, stored, after_read.
  destruct w as [[quotes|] c o]; reflexivity.
Qed.

Lemma writeQuotes_saved env quotes w :
  env_write_ok env = true →
  writeQuotes env quotes w
  = (Ret true, mkWorld (Readable quotes) (console w) (outbox w)).
Proof.
  intros Hok. unfold writeQuotes, try_catch, writeJsonSync, mbind, M_bind.
  by rewrite Hok.
Qed.

Lemma writeQuotes_failed env quotes w :
  env_write_ok env = false →
  writeQuotes env quotes w
  = (Ret false,
     mkWorld (data_file w) (console w ++ ["Error writing quotes file:"%string])
       (outbox w)).
Proof.
  intros Hok. unfold writeQuotes, try_catch, writeJsonSync, mbind, M_bind.
  by rewrite Hok.
Qed.

Lemma stored_after_read w : stored (after_read w) = stored w.
Proof. by destruct w as [[quotes|] c o]. Qed.

Lemma data_file_after_read w : data_file (after_read w) = data_file w.
Proof. by destruct w as [[quotes|] c o]. Qed.

Lemma outbox_after_read w : outbox (after_read w) = outbox w.
Proof. by destruct w as [[quotes|] c o]. Qed.

Lemma after_read_readable w quotes :
  data_file w = Readable quotes → after_read w = w.
Proof. unfold after_read. by intros ->. Qed.

(** Rewrites one handler step at a time. *)
Ltac step_read := erewrite bind_run by apply readQuotes_run.
Ltac step_saved H := erewrite bind_run by (apply writeQuotes_saved, H).
Ltac step_failed H := erewrite bind_run by (apply writeQuotes_failed, H).

(** ** The record store *)

(** C8: [readQuotes] always returns to its caller.  When the underlying
    read returns the collection, so does [readQuotes], without any effect;
    when the underlying read throws, [readQuotes] returns the empty
    collection and the exception does not escape. *)
Theorem readQuotes_never_throws (w : World) :
  match readJsonSync w with
  | (Ret quotes, _) => readQuotes w = (Ret quotes, w)
  | (Throw _, _) =>
      ∃ w', readQuotes w = (Ret [], w') ∧ data_file w' = data_file w
  end.
Proof.
  unfold readQuotes, try_catch, readJsonSync.
  destruct (data_file w) as [quotes|] eqn:Hfile.
  - reflexivity.
  - eexists. split; [reflexivity|]. simpl. by rewrite Hfile.
Qed.

(** ** Validation *)

Section ValidationFacts.
Context `{ValidatorLib}.

Lemma validateQuote_unfold body :
  validateQuote body
  = (mkBody (run_chain "name" chain_name (body_name body)).1
       (run_chain "email" chain_email (body_email body)).1
       (run_chain "phone" chain_phone (body_phone body)).1
       (run_optional "company" chain_company (body_company body)).1
       (run_chain "projectType" chain_projectType (body_projectType body)).1
       (run_chain "budget" chain_budget (body_budget body)).1
       (run_chain "timeline" chain_timeline (body_timeline body)).1
       (run_chain "description" chain_description (body_description body)).1,
     (run_chain "name" chain_name (body_name body)).2
     ++ (run_chain "email" chain_email (body_email body)).2
     ++ (run_chain "phone" chain_phone (body_phone body)).2
     ++ (run_optional "company" chain_company (body_company body)).2
     ++ (run_chain "projectType" chain_projectType (body_projectType body)).2
     ++ (run_chain "budget" chain_budget (body_budget body)).2
     ++ (run_chain "timeline" chain_timeline (body_timeline body)).2
     ++ (run_chain "description" chain_description (body_description body)).2).
Proof.
  unfold validateQuote.
  repeat match goal with
         | |- context [run_chain ?f ?c ?v] => destruct (run_chain f c v)
         | |- context [run_optional ?f ?c ?v] => destruct (run_optional f c v)
         end.
  reflexivity.
Qed.

(** The sanitized body of a submission. *)
Lemma validateQuote_body body :
  (validateQuote body).1
  = mkBody (trim (body_name body)) (normalizeEmail (trim (body_email body)))
      (trim (body_phone body)) (trim <$> body_company body)
      (trim (body_projectType body)) (trim (body_budget body))
      (trim (body_timeline body)) (trim (body_description body)).
Proof.
  rewrite validateQuote_unfold. simpl.
  destruct (body_company body); reflexivity.
Qed.

Lemma name_errors body :
  (run_chain "name" chain_name (body_name body)).2
  = (if isLength 2 (Some 100%nat) (trim (body_name body)) then []
     else [mkError "name" "Name must be between 2 and 100 characters"])
    ++ (if matches_name (trim (body_name body)) then []
        else [mkError "name" "Name can only contain letters and spaces"]).
Proof.
  simpl. by destruct (isLength _ _ _), (matches_name _).
Qed.

Lemma post_quotes_invalid env body w :
  (validateQuote body).2 ≠ [] →
  post_quotes env body w
  = (Ret (mkResponse 400
            (PValidation "Validation failed" (validateQuote body).2)), w).
Proof.
  intros Herr. unfold post_quotes.
  destruct (validateQuote body) as [b [|e errors]]; [done|reflexivity].
Qed.

Lemma matches_name_false s c :
  c ∈ s → is_letter c = false → is_space c = false → matches_name s = false.
Proof.
  intros Hin Hl Hs. unfold matches_name.
  apply andb_false_iff. right.
  apply not_true_is_false. intros Hall.
  rewrite forallb_forall in Hall.
  apply list_elem_of_In, Hall in Hin. by rewrite Hl, Hs in Hin.
Qed.

(** C10: a submission whose trimmed name contains a character that is
    neither an ASCII letter nor white space is answered 400 with a
    validation error naming the field [name], whatever the length of the
    name, and the world (so the store) is left as it was. *)
Theorem name_charset_rejected (env : Env) (body : ReqBody) (w : World) (c : N) :
  c ∈ trim (body_name body) →
  is_letter c = false →
  is_space c = false →
  ∃ errors,
    post_quotes env body w
    = (Ret (mkResponse 400 (PValidation "Validation failed" errors)), w)
    ∧ mkError "name" "Name can only contain letters and spaces" ∈ errors.
Proof.
  intros Hin Hl Hs.
  pose proof (matches_name_false _ _ Hin Hl Hs) as Hm.
  assert (mkError "name" "Name can only contain letters and spaces"
          ∈ (validateQuote body).2) as Hmem.
  { rewrite validateQuote_unfold. cbn [snd]. rewrite name_errors, Hm.
    destruct (isLength _ _ _); simpl; repeat constructor. }
  exists (validateQuote body).2. split; [|done].
  apply post_quotes_invalid. intros Hnil. rewrite Hnil in Hmem.
  by apply not_elem_of_nil in Hmem.
Qed.
End ValidationFacts.

(** ** Lookup by id *)

Lemma find_by_id_None key quotes :
  find_by_id key quotes = None ↔ key ∉ id <$> quotes.
Proof.
  unfold find_by_id. rewrite list_find_None, Forall_forall. split.
  - intros Hall [q [-> Hq]]%list_elem_of_fmap. by apply (Hall q).
  - intros Hnot q Hq Hid. apply Hnot, list_elem_of_fmap. by exists q.
Qed.

Lemma find_by_id_Some key quotes i q :
  find_by_id key quotes = Some (i, q) → quotes !! i = Some q ∧ id q = key.
Proof. unfold find_by_id. rewrite list_find_Some. tauto. Qed.

Lemma find_by_id_present key quotes :
  key ∈ id <$> quotes →
  ∃ i q, find_by_id key quotes = Some (i, q) ∧ quotes !! i = Some q ∧ id q = key.
Proof.
  intros Hin. destruct (find_by_id key quotes) as [[i q]|] eqn:Hfind.
  - exists i, q. split; [done|]. by apply find_by_id_Some.
  - by apply find_by_id_None in Hfind.
Qed.

Lemma find_by_id_fresh key quotes q :
  key ∉ id <$> quotes → id q = key →
  find_by_id key (quotes ++ [q]) = Some (length quotes, q).
Proof.
  intros Hfresh Hid. unfold find_by_id.
  rewrite list_find_app_r by by apply find_by_id_None.
  simpl. by rewrite decide_True by done.
Qed.

Lemma delete_removes_id quotes i q :
  NoDup (id <$> quotes) → quotes !! i = Some q →
  id q ∉ id <$> delete i quotes.
Proof.
  intros Hnd Hi. rewrite delete_take_drop.
  rewrite <- (take_drop_middle quotes i q Hi) in Hnd.
  rewrite fmap_app, fmap_cons in Hnd.
  apply NoDup_app in Hnd as (_ & Hdisj & Hnd).
  apply NoDup_cons in Hnd as [Hnot _].
  rewrite fmap_app, elem_of_app. intros [Hl | Hr]; [|done].
  apply (Hdisj _ Hl). by left.
Qed.

(** ** The handlers, step by step *)

Lemma get_quote_run req_id w :
  get_quote req_id w
  = (Ret match find_by_id req_id (stored w) with
         | None => mkResponse 404 (PMessage false "Quote not found")
         | Some (_, quote) => mkResponse 200 (PQuote quote)
         end, after_read w).
Proof.
  unfold get_quote. step_read.
  by destruct (find_by_id _ _) as [[i q]|].
Qed.

Lemma get_quotes_run `{DateLib} query w :
  get_quotes query w
  = (Ret (mkResponse 200
            (PList (list_quotes query (stored w))
               (length (list_quotes query (stored w))))), after_read w).
Proof. unfold get_quotes. by step_read. Qed.

Lemma get_stats_run w :
  get_stats w
  = (Ret (mkResponse 200
            (PStats (mkStats (length (stored w))
                       (count_status "new" (stored w))
                       (count_status "reviewed" (stored w))
                       (count_status "contacted" (stored w))
                       (count_status "quoted" (stored w))
                       (count_status "accepted" (stored w))
                       (count_status "rejected" (stored w))))), after_read w).
Proof. unfold get_stats. by step_read. Qed.

Lemma post_quotes_valid `{ValidatorLib} env body w :
  (validateQuote body).2 = [] →
  post_quotes env body w
  = if env_write_ok env
    then (Ret (mkResponse 201
                 (PCreated "Quote request submitted successfully" (env_uuid env))),
          mkWorld (Readable (stored w ++ [new_quote env body]))
            (console (after_read w))
            (outbox w ++ [new_quote env body]))
    else (Ret (mkResponse 500 (PMessage false "Failed to save quote request")),
          mkWorld (data_file w)
            (console (after_read w) ++ ["Error writing quotes file:"%string])
            (outbox w)).
Proof.
  intros Hvalid. unfold post_quotes.
  pose proof (validateQuote_body body) as Hbody.
  destruct (validateQuote body) as [b errors]. simpl in Hvalid, Hbody.
  subst errors b. cbn [body_name body_email body_phone body_company
    body_projectType body_budget body_timeline body_description].
  fold (new_quote env body). step_read.
  destruct (env_write_ok env) eqn:Hok.
  - step_saved Hok. unfold sendQuoteNotification, mbind, M_bind, mret, M_ret.
    simpl. by rewrite outbox_after_read.
  - step_failed Hok. unfold mret, M_ret.
    by rewrite data_file_after_read, outbox_after_read.
Qed.

(** ** Create *)

(** C1, as amended: for a submission that passes validation, when the
    write succeeds and the generated id is not yet in the store, Create
    answers 201 with that id, and Get with it returns the record made of the
    sanitized input (every field trimmed, the email also normalized, an
    omitted company stored as the empty string), the id, the status [new]
    and the two clock readings. *)
Theorem create_then_get `{ValidatorLib} (env : Env) (body : ReqBody) (w : World) :
  (validateQuote body).2 = [] →
  env_write_ok env = true →
  env_uuid env ∉ id <$> stored w →
  ∃ w1,
    post_quotes env body w
    = (Ret (mkResponse 201
              (PCreated "Quote request submitted successfully" (env_uuid env))), w1)
    ∧ get_quote (env_uuid env) w1
      = (Ret (mkResponse 200
                (PQuote
                   (mkQuote (env_uuid env) (trim (body_name body))
                      (normalizeEmail (trim (body_email body)))
                      (trim (body_phone body))
                      (match body_company body with
                       | Some c => trim c
                       | None => []
                       end)
                      (trim (body_projectType body)) (trim (body_budget body))
                      (trim (body_timeline body)) (trim (body_description body))
                      (js "new") (env_now1 env) (env_now2 env)))), w1).
Proof.
  intros Hvalid Hok Hfresh.
  rewrite (post_quotes_valid env body w Hvalid), Hok.
  eexists. split; [reflexivity|].
  rewrite get_quote_run. cbn [stored data_file after_read].
  rewrite (find_by_id_fresh _ _ (new_quote env body) Hfresh eq_refl).
  unfold new_quote. by destruct (body_company body).
Qed.

(** ** The handlers on any file system *)

Section AnyFileSystem.
Context `{ValidatorLib} {FS : FileSystem}.

Lemma writeQuotes_saved_on env quotes w :
  env_write_ok env = true →
  writeQuotes env quotes w
  = (Ret true, mkWorld (Readable quotes) (console w) (outbox w)).
Proof.
  intros Hok. unfold writeQuotes, try_catch, writeJsonSync, mbind, M_bind.
  by rewrite Hok.
Qed.

Lemma writeQuotes_failed_on env quotes w :
  env_write_ok env = false →
  writeQuotes env quotes w
  = (Ret false,
     mkWorld (after_failed_write (data_file w) quotes)
       (console w ++ ["Error writing quotes file:"%string]) (outbox w)).
Proof.
  intros Hok. unfold writeQuotes, try_catch, writeJsonSync, mbind, M_bind.
  by rewrite Hok.
Qed.

Lemma post_quotes_valid_on env body w :
  (validateQuote body).2 = [] →
  post_quotes env body w
  = if env_write_ok env
    then (Ret (mkResponse 201
                 (PCreated "Quote request submitted successfully" (env_uuid env))),
          mkWorld (Readable (stored w ++ [new_quote env body]))
            (console (after_read w))
            (outbox w ++ [new_quote env body]))
    else (Ret (mkResponse 500 (PMessage false "Failed to save quote request")),
          mkWorld
            (after_failed_write (data_file w) (stored w ++ [new_quote env body]))
            (console (after_read w) ++ ["Error writing quotes file:"%string])
            (outbox w)).
Proof.
  intros Hvalid. unfold post_quotes.
  pose proof (validateQuote_body body) as Hbody.
  destruct (validateQuote body) as [b errors]. simpl in Hvalid, Hbody.
  subst errors b. cbn [body_name body_email body_phone body_company
    body_projectType body_budget body_timeline body_description].
  fold (new_quote env body). step_read.
  destruct (env_write_ok env) eqn:Hok.
  - erewrite bind_run by (apply writeQuotes_saved_on, Hok).
    unfold sendQuoteNotification, mbind, M_bind, mret, M_ret.
    simpl. by rewrite outbox_after_read.
  - erewrite bind_run by (apply writeQuotes_failed_on, Hok).
    unfold mret, M_ret.
    by rewrite data_file_after_read, outbox_after_read.
Qed.

Lemma post_quotes_invalid_on env body w :
  (validateQuote body).2 ≠ [] →
  post_quotes env body w
  = (Ret (mkResponse 400
            (PValidation "Validation failed" (validateQuote body).2)), w).
Proof.
  intros Herr. unfold post_quotes.
  destruct (validateQuote body) as [b [|e errors]]; [done|reflexivity].
Qed.

Lemma patch_status_run_on env req_id status_ w :
  patch_status env req_id status_ w
  = if negb (includes valid_statuses status_)
    then (Ret (mkResponse 400 (PMessage false "Invalid status")), w)
    else match find_by_id req_id (stored w) with
         | None =>
             (Ret (mkResponse 404 (PMessage false "Quote not found")),
              after_read w)
         | Some (i, q) =>
             let q' := with_status (default [] status_) (env_now1 env) q in
             if env_write_ok env
             then (Ret (mkResponse 200
                          (PUpdated "Quote status updated successfully" q')),
                   mkWorld (Readable (<[i := q']> (stored w)))
                     (console (after_read w)) (outbox w))
             else (Ret (mkResponse 500
                          (PMessage false "Failed to update quote status")),
                   mkWorld
                     (after_failed_write (data_file w) (<[i := q']> (stored w)))
                     (console (after_read w)
                      ++ ["Error writing quotes file:"%string])
                     (outbox w))
         end.
Proof.
  unfold patch_status. destruct (negb (includes valid_statuses status_)); [done|].
  step_read. destruct (find_by_id req_id (stored w)) as [[i q]|]; [|done].
  destruct (env_write_ok env) eqn:Hok.
  - erewrite bind_run by (apply writeQuotes_saved_on, Hok).
    by rewrite outbox_after_read.
  - erewrite bind_run by (apply writeQuotes_failed_on, Hok).
    by rewrite data_file_after_read, outbox_after_read.
Qed.

Lemma delete_quote_run_on env req_id w :
  delete_quote env req_id w
  = match find_by_id req_id (stored w) with
    | None =>
        (Ret (mkResponse 404 (PMessage false "Quote not found")), after_read w)
    | Some (i, _) =>
        if env_write_ok env
        then (Ret (mkResponse 200 (PMessage true "Quote deleted successfully")),
              mkWorld (Readable (delete i (stored w)))
                (console (after_read w)) (outbox w))
        else (Ret (mkResponse 500 (PMessage false "Failed to delete quote")),
              mkWorld (after_failed_write (data_file w) (delete i (stored w)))
                (console (after_read w) ++ ["Error writing quotes file:"%string])
                (outbox w))
    end.
Proof.
  unfold delete_quote. step_read.
  destruct (find_by_id req_id (stored w)) as [[i q]|]; [|done].
  destruct (env_write_ok env) eqn:Hok.
  - erewrite bind_run by (apply writeQuotes_saved_on, Hok).
    by rewrite outbox_after_read.
  - erewrite bind_run by (apply writeQuotes_failed_on, Hok).
    by rewrite data_file_after_read, outbox_after_read.
Qed.

(** C7, as amended: for a submission that passes validation, when the
    write fails, on any file system, Create answers 500, sends no
    notification and leaves of the data file what the failed write leaves;
    when the write was refused at the opening of the file, the data file is
    as it was and Get and List answer afterwards exactly as they did
    before. *)
Theorem create_write_failure `{DateLib}
    (env : Env) (body : ReqBody) (w : World) :
  (validateQuote body).2 = [] →
  env_write_ok env = false →
  ∃ w',
    post_quotes env body w
    = (Ret (mkResponse 500 (PMessage false "Failed to save quote request")), w')
    ∧ outbox w' = outbox w
    ∧ data_file w'
      = after_failed_write (data_file w) (stored w ++ [new_quote env body])
    ∧ (write_fault = RefusedAtOpen →
       data_file w' = data_file w
       ∧ (∀ req_id, (get_quote req_id w').1 = (get_quote req_id w).1)
       ∧ (∀ query, (get_quotes query w').1 = (get_quotes query w).1)).
Proof.
  intros Hvalid Hok.
  rewrite (post_quotes_valid_on env body w Hvalid), Hok.
  eexists. split; [reflexivity|]. split; [reflexivity|]. split; [reflexivity|].
  intros Hrefused. cbn [data_file].
  assert (after_failed_write (data_file w) (stored w ++ [new_quote env body])
          = data_file w) as Hsame
    by (unfold after_failed_write; by rewrite Hrefused).
  split; [exact Hsame|].
  assert (∀ c o,
            stored (mkWorld (after_failed_write (data_file w)
                               (stored w ++ [new_quote env body])) c o)
            = stored w) as Hstored.
  { intros c o. unfold stored at 1. cbn [data_file]. by rewrite Hsame. }
  split.
  - intros req_id. rewrite !get_quote_run. cbn [fst]. by rewrite Hstored.
  - intros query. rewrite !get_quotes_run. cbn [fst]. by rewrite Hstored.
Qed.
End AnyFileSystem.

(** ** UpdateStatus *)

Lemma includes_false l v :
  (∀ s, v = Some s → s ∉ l) → includes l v = false.
Proof.
  intros Hout. destruct v as [s|]; [|done].
  simpl. apply bool_decide_eq_false_2. by apply Hout.
Qed.

Lemma includes_true l s : s ∈ l → includes l (Some s) = true.
Proof. intros Hin. simpl. by apply bool_decide_eq_true_2. Qed.

(** C2: a status that is missing or outside the closed set is answered
    400 and the world is exactly as before; a status of the set with an id
    that is absent is answered 404 and the data file is as before; a status
    of the set with an id that is present, when the write succeeds, replaces
    the first record with that id by a copy in which only [status] and
    [updatedAt] are overwritten, writes the collection and answers 200 with
    that copy. *)
Theorem update_status_cases (env : Env) (req_id : jstring)
    (status_ : option jstring) (w : World) :
  ((∀ s, status_ = Some s → s ∉ valid_statuses) →
   patch_status env req_id status_ w
   = (Ret (mkResponse 400 (PMessage false "Invalid status")), w))
  ∧ (∀ s, status_ = Some s →
     s ∈ valid_statuses →
     req_id ∉ id <$> stored w →
     ∃ w',
       patch_status env req_id status_ w
       = (Ret (mkResponse 404 (PMessage false "Quote not found")), w')
       ∧ data_file w' = data_file w)
  ∧ (∀ s, status_ = Some s →
     s ∈ valid_statuses →
     req_id ∈ id <$> stored w →
     env_write_ok env = true →
     ∃ i q,
       stored w !! i = Some q ∧ id q = req_id
       ∧ let q' :=
           mkQuote (id q) (name q) (email q) (phone q) (company q)
             (projectType q) (budget q) (timeline q) (description q) s
             (createdAt q) (env_now1 env) in
         patch_status env req_id status_ w
         = (Ret (mkResponse 200
                   (PUpdated "Quote status updated successfully" q')),
            mkWorld (Readable (<[i := q']> (stored w))) (console w) (outbox w))).
Proof.
  split; [|split].
  - intros Hbad. unfold patch_status. by rewrite includes_false.
  - intros s -> Hs Habsent. unfold patch_status.
    rewrite includes_true by done. simpl.
    step_read. apply find_by_id_None in Habsent. rewrite Habsent.
    eexists. split; [reflexivity|]. apply data_file_after_read.
  - intros s -> Hs Hpresent Hok.
    destruct (find_by_id_present _ _ Hpresent) as (i & q & Hfind & Hi & Hid).
    exists i, q. split; [done|]. split; [done|].
    unfold patch_status. rewrite includes_true by done. simpl.
    step_read. rewrite Hfind. step_saved Hok.
    assert (after_read w = w) as ->.
    { unfold stored in Hi. destruct (data_file w) eqn:Hfile.
      - by eapply after_read_readable.
      - by rewrite lookup_nil in Hi. }
    reflexivity.
Qed.

(** ** Delete *)

(** C5: when the ids of the store are distinct and the store holds a
    record with the given id, a first Delete whose write succeeds answers
    200 and leaves the collection without that record on disk, and a second
    Delete of the same id answers 404 and changes nothing. *)
Theorem delete_twice (env1 env2 : Env) (req_id : jstring) (w : World) :
  NoDup (id <$> stored w) →
  req_id ∈ id <$> stored w →
  env_write_ok env1 = true →
  ∃ i q w1,
    stored w !! i = Some q ∧ id q = req_id
    ∧ delete_quote env1 req_id w
      = (Ret (mkResponse 200 (PMessage true "Quote deleted successfully")), w1)
    ∧ data_file w1 = Readable (delete i (stored w))
    ∧ delete_quote env2 req_id w1
      = (Ret (mkResponse 404 (PMessage false "Quote not found")), w1).
Proof.
  intros Hnd Hpresent Hok.
  destruct (find_by_id_present _ _ Hpresent) as (i & q & Hfind & Hi & Hid).
  exists i, q. eexists. split; [done|]. split; [done|].
  split; [|split].
  - unfold delete_quote. step_read. rewrite Hfind. step_saved Hok. reflexivity.
  - reflexivity.
  - unfold delete_quote. step_read. cbn [stored data_file after_read].
    pose proof (delete_removes_id _ _ _ Hnd Hi) as Hgone.
    rewrite Hid in Hgone. apply find_by_id_None in Hgone.
    by rewrite Hgone.
Qed.

(** ** Sorting *)

Section SortFacts.
Context {A : Type} (comparefn : A → A → option Z).

Lemma sort_insert_perm x l : sort_insert comparefn x l ≡ₚ x :: l.
Proof.
  induction l as [|y l IH]; simpl; [done|].
  destruct (sort_compare comparefn x y <=? 0)%Z; [done|].
  rewrite IH. apply Permutation_swap.
Qed.

Lemma Array_sort_perm l : Array_sort comparefn l ≡ₚ l.
Proof.
  induction l as [|x l IH]; simpl; [done|].
  by rewrite sort_insert_perm, IH.
Qed.

(** A comparator that never tells two elements apart leaves the array
    in its order. *)
Lemma Array_sort_ties l :
  (∀ x y, sort_compare comparefn x y = 0%Z) → Array_sort comparefn l = l.
Proof.
  intros Hties. induction l as [|x l IH]; simpl; [done|].
  rewrite IH. destruct l as [|y l']; simpl; [done|].
  by rewrite Hties.
Qed.

(** On elements for which the comparator is the sign of an order [R],
    the result is sorted by [R]. *)
Section Sorted.
Context (R : A → A → Prop) (P : A → Prop).
Hypothesis R_trans : ∀ x y z, R x y → R y z → R x z.
Hypothesis compare_le :
  ∀ x y, P x → P y → (sort_compare comparefn x y ≤ 0)%Z → R x y.
Hypothesis compare_gt :
  ∀ x y, P x → P y → (0 < sort_compare comparefn x y)%Z → R y x.

Lemma sort_insert_sorted x l :
  P x → Forall P l → StronglySorted R l →
  StronglySorted R (sort_insert comparefn x l).
Proof.
  intros Hx HP Hsorted. induction Hsorted as [|y l Hsorted IH Hy]; simpl.
  - repeat constructor.
  - apply Forall_cons in HP as [HPy HPl].
    destruct (Z.leb_spec (sort_compare comparefn x y) 0) as [Hle|Hgt].
    + assert (R x y) as Hxy by by apply compare_le.
      constructor; [by constructor|].
      constructor; [done|].
      eapply Forall_impl; [exact Hy|]. intros z Hyz. by eapply R_trans.
    + constructor; [by apply IH|].
      rewrite sort_insert_perm. constructor; [|done].
      by apply compare_gt.
Qed.

Lemma Array_sort_sorted l :
  Forall P l → StronglySorted R (Array_sort comparefn l).
Proof.
  induction l as [|x l IH]; simpl; intros HP; [constructor|].
  apply Forall_cons in HP as [HPx HPl].
  apply sort_insert_sorted; [done| |by apply IH].
  by rewrite Array_sort_perm.
Qed.
End Sorted.
End SortFacts.

(** ** List *)

Section ListFacts.
Context `{DateLib}.

Lemma filter_constraint (v : option jstring) (proj : Quote → jstring)
    (quotes : list Quote) :
  (if truthy v && negb (bool_decide (v = Some (js "all")))
   then filter (λ quote, Some (proj quote) = v) quotes
   else quotes)
  = filter (λ q, no_constraint v ∨ v = Some (proj q)) quotes.
Proof.
  destruct (truthy v && negb (bool_decide (v = Some (js "all")))) eqn:Hcond.
  - apply andb_true_iff in Hcond as [Htruthy Hall].
    apply negb_true_iff, bool_decide_eq_false in Hall.
    apply list_filter_iff. intros q. split; [by right; symmetry|].
    intros [[-> | [-> | ->]] | ->]; done.
  - symmetry. induction quotes as [|q quotes IH]; [done|].
    rewrite filter_cons_True, IH; [done|]. left.
    apply andb_false_iff in Hcond as [Hfalsy | Hall].
    + destruct v as [s|]; [|by left]. right; left.
      simpl in Hfalsy. apply negb_false_iff, bool_decide_eq_true in Hfalsy.
      by subst.
    + apply negb_false_iff, bool_decide_eq_true in Hall. by right; right.
Qed.

Lemma list_quotes_unfold query quotes :
  list_quotes query quotes
  = Array_sort
      (compareFn (default (js "createdAt") (query_sortBy query))
         (default (js "desc") (query_order query)))
      (filter (satisfies (query_status query) (query_projectType query)) quotes).
Proof.
  unfold list_quotes. f_equal.
  rewrite (filter_constraint (query_projectType query) projectType).
  rewrite (filter_constraint (query_status query) status).
  rewrite list_filter_filter. apply list_filter_iff.
  intros q. unfold satisfies. tauto.
Qed.

Lemma property_unknown key q : key ∉ field_names → property key q = None.
Proof.
  intros Hkey. unfold property.
  repeat (rewrite bool_decide_eq_false_2;
          [|intros ->; apply Hkey; unfold field_names;
            rewrite list_elem_of_In; simpl; tauto]).
  reflexivity.
Qed.

Lemma compareFn_unknown key order a b :
  key ∉ field_names → sort_compare (compareFn key order) a b = 0%Z.
Proof.
  intros Hkey. unfold sort_compare, compareFn.
  rewrite !(property_unknown key) by done.
  by destruct (bool_decide _).
Qed.

Lemma compareFn_default a b ta tb :
  created_time a = Some ta → created_time b = Some tb →
  sort_compare (compareFn (js "createdAt") (js "desc")) a b = (tb - ta)%Z.
Proof.
  unfold created_time, sort_compare, compareFn. intros Ha Hb.
  change (property (js "createdAt") a) with (Some (createdAt a)).
  change (property (js "createdAt") b) with (Some (createdAt b)).
  rewrite bool_decide_eq_true_2 by done. simpl. by rewrite Ha, Hb.
Qed.

Lemma newer_first_trans a b c :
  newer_first a b → newer_first b c → newer_first a c.
Proof.
  unfold newer_first.
  destruct (created_time a), (created_time b), (created_time c); try done.
  lia.
Qed.

(** C3: when every [createdAt] of the collection is a valid date, List
    without [sortBy] and [order] returns the selected records ordered by
    [createdAt] descending; with a [sortBy] that names no field of the
    records, whatever the [order], it returns the selected records in
    their stored order. *)
Theorem list_sort_order (status_ projectType_ : option jstring) (w : World) :
  (Forall (λ q, is_Some (Date_parse (createdAt q))) (stored w) →
   ∃ l w',
     get_quotes (mkQuery status_ projectType_ None None) w
     = (Ret (mkResponse 200 (PList l (length l))), w')
     ∧ l ≡ₚ filter (satisfies status_ projectType_) (stored w)
     ∧ StronglySorted newer_first l)
  ∧ (∀ sortBy order,
       sortBy ∉ field_names →
       ∃ w',
         get_quotes (mkQuery status_ projectType_ (Some sortBy) order) w
         = (Ret (mkResponse 200
                   (PList (filter (satisfies status_ projectType_) (stored w))
                      (length (filter (satisfies status_ projectType_)
                                 (stored w))))), w')).
Proof.
  split.
  - intros Hdates. rewrite get_quotes_run, list_quotes_unfold. simpl.
    eexists _, _. split; [reflexivity|]. split; [apply Array_sort_perm|].
    apply (Array_sort_sorted _ newer_first (λ q, is_Some (created_time q))).
    + apply newer_first_trans.
    + intros a b [ta Ha] [tb Hb]. rewrite (compareFn_default a b ta tb) by done.
      unfold newer_first. rewrite Ha, Hb. lia.
    + intros a b [ta Ha] [tb Hb]. rewrite (compareFn_default a b ta tb) by done.
      unfold newer_first. rewrite Ha, Hb. lia.
    + apply Forall_forall. intros q [_ Hq]%list_elem_of_filter.
      rewrite Forall_forall in Hdates. by apply Hdates.
  - intros sortBy order Hkey. rewrite get_quotes_run, list_quotes_unfold.
    simpl. rewrite Array_sort_ties; [by eexists|].
    intros a b. by apply compareFn_unknown.
Qed.

(** C6, as amended: List returns exactly the stored records that equal
    every constraining filter value, each as often as it is stored, where
    a filter that is omitted, empty or [all] constrains nothing. *)
Theorem list_filters (query : Query) (w : World) :
  ∃ l w',
    get_quotes query w = (Ret (mkResponse 200 (PList l (length l))), w')
    ∧ l ≡ₚ filter (satisfies (query_status query) (query_projectType query))
             (stored w)
    ∧ ∀ q, q ∈ l ↔
           q ∈ stored w
           ∧ (no_constraint (query_status query)
              ∨ query_status query = Some (status q))
           ∧ (no_constraint (query_projectType query)
              ∨ query_projectType query = Some (projectType q)).
Proof.
  rewrite get_quotes_run, list_quotes_unfold.
  eexists _, _. split; [reflexivity|]. split; [apply Array_sort_perm|].
  intros q. rewrite Array_sort_perm, list_elem_of_filter.
  unfold satisfies. tauto.
Qed.
End ListFacts.

(** ** Runs of the server *)

Section RunFacts.
Context `{ValidatorLib} `{DateLib}.

(** What one request does to the stored collection. *)
Lemma handle_stored env req w :
  stored (handle env req w).2 = stored w
  ∨ (∃ body, req = Create body
       ∧ stored (handle env req w).2 = stored w ++ [new_quote env body])
  ∨ (∃ req_id s i q, req = UpdateStatus req_id (Some s)
       ∧ s ∈ valid_statuses ∧ stored w !! i = Some q ∧ id q = req_id
       ∧ stored (handle env req w).2
         = <[i := with_status s (env_now1 env) q]> (stored w))
  ∨ (∃ req_id i q, req = Delete req_id
       ∧ stored w !! i = Some q ∧ id q = req_id
       ∧ stored (handle env req w).2 = delete i (stored w)).
Proof.
  destruct req as [body|query|req_id|req_id status_|req_id|]; simpl.
  - destruct (decide ((validateQuote body).2 = [])) as [Hvalid|Hinvalid].
    + rewrite post_quotes_valid by done.
      destruct (env_write_ok env); [right; left; by exists body|by left].
    + rewrite post_quotes_invalid by done. by left.
  - rewrite get_quotes_run. left. apply stored_after_read.
  - rewrite get_quote_run. left. apply stored_after_read.
  - unfold patch_status.
    destruct (includes valid_statuses status_) eqn:Hincl; simpl; [|by left].
    destruct status_ as [s|]; [|done].
    simpl in Hincl. apply bool_decide_eq_true in Hincl.
    step_read.
    destruct (find_by_id req_id (stored w)) as [[i q]|] eqn:Hfind.
    + apply find_by_id_Some in Hfind as [Hi Hid].
      destruct (env_write_ok env) eqn:Hok.
      * step_saved Hok. right; right; left. by exists req_id, s, i, q.
      * step_failed Hok. left. unfold stored. simpl.
        by rewrite data_file_after_read.
    + left. apply stored_after_read.
  - unfold delete_quote. step_read.
    destruct (find_by_id req_id (stored w)) as [[i q]|] eqn:Hfind.
    + apply find_by_id_Some in Hfind as [Hi Hid].
      destruct (env_write_ok env) eqn:Hok.
      * step_saved Hok. right; right; right. by exists req_id, i, q.
      * step_failed Hok. left. unfold stored. simpl.
        by rewrite data_file_after_read.
    + left. apply stored_after_read.
  - rewrite get_stats_run. left. apply stored_after_read.
Qed.

(** Every stored status is one of the closed set, in every world that
    the server reaches from such a world. *)
Lemma handle_statuses env req w :
  Forall (λ q, status q ∈ valid_statuses) (stored w) →
  Forall (λ q, status q ∈ valid_statuses) (stored (handle env req w).2).
Proof.
  intros Hinv.
  destruct (handle_stored env req w)
    as [-> | [(body & _ & ->) | [(r & s & i & q & _ & Hs & Hi & _ & ->)
                                | (r & i & q & _ & _ & _ & ->)]]].
  - done.
  - apply Forall_app. split; [done|]. repeat constructor.
  - apply Forall_insert; done.
  - by apply Forall_delete.
Qed.

Lemma run_statuses reqs w :
  Forall (λ q, status q ∈ valid_statuses) (stored w) →
  Forall (λ q, status q ∈ valid_statuses) (stored (run reqs w)).
Proof.
  revert w. induction reqs as [|[env req] reqs IH]; intros w Hinv; simpl.
  - done.
  - by apply IH, handle_statuses.
Qed.
End RunFacts.

(** ** Stats *)

Lemma count_status_cons s q quotes :
  count_status s (q :: quotes)
  = ((if bool_decide (status q = js s) then 1 else 0) + count_status s quotes)%nat.
Proof.
  unfold count_status. rewrite filter_cons.
  destruct (decide (status q = js s)) as [Heq|Hne].
  - by rewrite bool_decide_eq_true_2.
  - by rewrite bool_decide_eq_false_2.
Qed.

Lemma count_statuses quotes :
  Forall (λ q, status q ∈ valid_statuses) quotes →
  length quotes
  = (count_status "new" quotes + count_status "reviewed" quotes
     + count_status "contacted" quotes + count_status "quoted" quotes
     + count_status "accepted" quotes + count_status "rejected" quotes)%nat.
Proof.
  induction 1 as [|q quotes Hq _ IH]; [done|].
  rewrite !count_status_cons. simpl length. rewrite IH.
  unfold valid_statuses in Hq. apply list_elem_of_In in Hq. simpl in Hq.
  destruct Hq as [<- | [<- | [<- | [<- | [<- | [<- | []]]]]]];
    repeat match goal with
           | |- context [@bool_decide ?P ?d] =>
               let b := eval vm_compute in (@bool_decide P d) in
               change (@bool_decide P d) with b
           end;
    cbv iota; lia.
Qed.

Section StatsFacts.
Context `{ValidatorLib} `{DateLib}.

(** C4: in every world that a sequence of requests reaches from the
    initial, empty store, the total of Stats is the sum of its six
    per-status counts and the length of the array that List returns
    without filters. *)
Theorem stats_total_consistent (reqs : list (Env * Request)) :
  ∃ s l w1 w2,
    get_stats (run reqs initial_world)
    = (Ret (mkResponse 200 (PStats s)), w1)
    ∧ get_quotes (mkQuery None None None None) (run reqs initial_world)
      = (Ret (mkResponse 200 (PList l (length l))), w2)
    ∧ stats_total s
      = (stats_new s + stats_reviewed s + stats_contacted s + stats_quoted s
         + stats_accepted s + stats_rejected s)%nat
    ∧ stats_total s = length l.
Proof.
  rewrite get_stats_run, get_quotes_run.
  eexists _, _, _, _. split; [reflexivity|]. split; [reflexivity|].
  cbn [stats_total stats_new stats_reviewed stats_contacted stats_quoted
       stats_accepted stats_rejected].
  split.
  - apply count_statuses, run_statuses. constructor.
  - rewrite list_quotes_unfold, Array_sort_perm. simpl.
    f_equal. symmetry. clear.
    induction (stored _) as [|q quotes IH]; [done|].
    rewrite filter_cons_True, IH; [done|].
    split; left; by left.
Qed.
End StatsFacts.

(** ** Frame of the mutations *)

Lemma same_but_status_refl q : same_but_status q q.
Proof. by repeat split. Qed.


Lemma with_status_same s now q : same_but_status q (with_status s now q).
Proof. by repeat split. Qed.

Section FrameFacts.
Context `{ValidatorLib} `{DateLib}.

(** Every record after a request was there before, up to [status] and
    [updatedAt], or is the record this request created. *)
Lemma handle_frame env req w q' :
  q' ∈ stored (handle env req w).2 →
  (∃ q, q ∈ stored w ∧ same_but_status q q')
  ∨ (∃ body, req = Create body ∧ q' = new_quote env body).
Proof.
  intros Hq'.
  destruct (handle_stored env req w)
    as [Heq | [(body & Hreq & Heq) | [(r & s & i & q & _ & _ & Hi & _ & Heq)
                                     | (r & i & q & _ & _ & _ & Heq)]]];
    rewrite Heq in Hq'.
  - left. exists q'. split; [done|apply same_but_status_refl].
  - apply elem_of_app in Hq' as [Hold | Hnew%list_elem_of_singleton].
    + left. exists q'. split; [done|apply same_but_status_refl].
    + right. by exists body.
  - left. apply list_elem_of_lookup in Hq' as [j Hj].
    destruct (decide (i = j)) as [<-|Hne].
    + rewrite list_lookup_insert_eq in Hj by by eapply lookup_lt_Some.
      injection Hj as <-. exists q. split; [|apply with_status_same].
      apply list_elem_of_lookup. by exists i.
    + rewrite list_lookup_insert_ne in Hj by done.
      exists q'. split; [|apply same_but_status_refl].
      apply list_elem_of_lookup. by exists j.
  - left. exists q'. split; [|apply same_but_status_refl].
    by eapply list_elem_of_delete_inv.
Qed.

End FrameFacts.

(** ** Invariants of a run *)

Section Invariants.
Context `{ValidatorLib} `{DateLib}.

(** The ids of the store stay distinct as long as every Create draws an id
    that the store does not hold. *)
Lemma handle_ids env req w :
  NoDup (id <$> stored w) →
  (∀ body, req = Create body → env_uuid env ∉ id <$> stored w) →
  NoDup (id <$> stored (handle env req w).2).
Proof.
  intros Hnd Hfresh.
  destruct (handle_stored env req w)
    as [-> | [(body & Hreq & ->) | [(r & s & i & q & _ & _ & Hi & _ & ->)
                                   | (r & i & q & _ & _ & _ & ->)]]].
  - done.
  - rewrite fmap_app. apply NoDup_app. split; [done|]. split.
    + intros x Hx [->|[]%not_elem_of_nil]%elem_of_cons.
      by apply (Hfresh body).
    + apply NoDup_singleton.
  - rewrite list_fmap_insert. simpl.
    rewrite list_insert_id; [done|]. by rewrite list_lookup_fmap, Hi.
  - rewrite list_fmap_delete. eapply sublist_NoDup; [exact Hnd|apply sublist_delete].
Qed.

(** Every [createdAt] of the store stays a valid date as long as the clock
    reading of every Create is one. *)
Lemma handle_dates env req w :
  Forall (λ q, is_Some (Date_parse (createdAt q))) (stored w) →
  is_Some (Date_parse (env_now1 env)) →
  Forall (λ q, is_Some (Date_parse (createdAt q))) (stored (handle env req w).2).
Proof.
  intros Hdates Hnow. apply Forall_forall. intros q' Hq'.
  apply handle_frame in Hq' as [(q & Hq & Hsame) | (body & _ & ->)]; [|done].
  rewrite Forall_forall in Hdates.
  destruct Hsame as (_ & _ & _ & _ & _ & _ & _ & _ & _ & <-). by apply Hdates.
Qed.
End Invariants.

(** ** Trimming *)

Lemma ltrim_head s :
  match ltrim s with
  | [] => True
  | c :: _ => is_space c = false
  end.
Proof.
  induction s as [|c s IH]; simpl; [done|].
  destruct (is_space c) eqn:Hc; [done|]. exact Hc.
Qed.

Lemma ltrim_fixed c s : is_space c = false → ltrim (c :: s) = c :: s.
Proof. intros Hc. simpl. by rewrite Hc. Qed.

Lemma ltrim_idemp s : ltrim (ltrim s) = ltrim s.
Proof.
  pose proof (ltrim_head s) as Hhead.
  destruct (ltrim s) as [|c t]; [done|]. by apply ltrim_fixed.
Qed.

Lemma ltrim_split s : ∃ sp, s = sp ++ ltrim s.
Proof.
  induction s as [|c s [sp IH]]; simpl.
  - by exists [].
  - destruct (is_space c).
    + exists (c :: sp). simpl. by rewrite <- IH.
    + by exists [].
Qed.

(** [rtrim] keeps a prefix of the string. *)
Lemma rtrim_prefix s : ∃ sp, s = rtrim s ++ sp.
Proof.
  unfold rtrim. destruct (ltrim_split (reverse s)) as [sp Hsp].
  exists (reverse sp).
  rewrite <- reverse_app, <- Hsp. by rewrite reverse_involutive.
Qed.

Lemma rtrim_idemp s : rtrim (rtrim s) = rtrim s.
Proof. unfold rtrim. by rewrite reverse_involutive, ltrim_idemp. Qed.

Lemma ltrim_rtrim_ltrim s : ltrim (rtrim (ltrim s)) = rtrim (ltrim s).
Proof.
  pose proof (ltrim_head s) as Hhead.
  destruct (rtrim_prefix (ltrim s)) as [sp Hsp].
  destruct (rtrim (ltrim s)) as [|c t]; [done|].
  rewrite Hsp in Hhead. simpl in Hhead. by apply ltrim_fixed.
Qed.

Lemma trim_idemp s : trim (trim s) = trim s.
Proof. unfold trim. by rewrite ltrim_rtrim_ltrim, rtrim_idemp. Qed.

(** ** Validation, field by field *)

Section ValidationByField.
Context `{ValidatorLib}.

Lemma run_chain_trimmed field items v :
  run_chain field (Sanitizer trim :: items) (trim v)
  = run_chain field (Sanitizer trim :: items) v.
Proof. simpl. by rewrite trim_idemp. Qed.

(** X1: surrounding white space in the fields of a submission changes
    neither the errors nor the sanitized body that validation produces. *)
Theorem validation_ignores_padding (body : ReqBody) :
  validateQuote (trim_body body) = validateQuote body.
Proof.
  rewrite !validateQuote_unfold.
  unfold trim_body, chain_name, chain_email, chain_phone, chain_projectType,
    chain_budget, chain_timeline, chain_description.
  cbn [body_name body_email body_phone body_company body_projectType
       body_budget body_timeline body_description].
  rewrite !run_chain_trimmed.
  destruct (body_company body) as [c|]; [|reflexivity].
  unfold chain_company. cbn [fmap option_fmap option_map run_optional].
  by rewrite run_chain_trimmed.
Qed.

Lemma elem_of_error (b : bool) (x e : ValidationError) :
  e ∈ (if b then [] else [x]) ↔ b = false ∧ e = x.
Proof.
  destruct b.
  - split; [intros Hin; by apply not_elem_of_nil in Hin|].
    intros [Hb _]. discriminate Hb.
  - rewrite list_elem_of_singleton. split; [by intros ->|by intros [_ ->]].
Qed.

Lemma validateQuote_errors body :
  (validateQuote body).2
  = (if isLength 2 (Some 100%nat) (trim (body_name body)) then []
     else [mkError "name" "Name must be between 2 and 100 characters"])
    ++ (if matches_name (trim (body_name body)) then []
        else [mkError "name" "Name can only contain letters and spaces"])
    ++ (if isEmail (trim (body_email body)) then []
        else [mkError "email" "Please provide a valid email address"])
    ++ (if isMobilePhone (trim (body_phone body)) then []
        else [mkError "phone" "Please provide a valid phone number"])
    ++ (if match body_company body with
           | Some c => isLength 0 (Some 100%nat) (trim c)
           | None => true
           end then []
        else [mkError "company" "Company name must be less than 100 characters"])
    ++ (if isIn project_types (trim (body_projectType body)) then []
        else [mkError "projectType" "Please select a valid project type"])
    ++ (if isIn budgets (trim (body_budget body)) then []
        else [mkError "budget" "Please select a valid budget range"])
    ++ (if isIn timelines (trim (body_timeline body)) then []
        else [mkError "timeline" "Please select a valid timeline"])
    ++ (if isLength 10 (Some 1000%nat) (trim (body_description body)) then []
        else [mkError "description"
                "Description must be between 10 and 1000 characters"]).
Proof.
  rewrite validateQuote_unfold. cbn [snd]. rewrite name_errors.
  rewrite <- (assoc (++)). do 2 f_equal.
  simpl. destruct (body_company body) as [c|]; simpl;
    by repeat match goal with
              | |- context [if ?b then _ else _] => destruct b
              end.
Qed.

Lemma field_error_iff (body : ReqBody) (field : string) :
  (∃ e, e ∈ (validateQuote body).2 ∧ path e = field) ↔ field_fails field body.
Proof.
  rewrite validateQuote_errors. split.
  - intros (e & He & <-). rewrite !elem_of_app, !elem_of_error in He.
    unfold isIn in He.
    destruct He as [[Hb ->] | [[Hb ->] | [[Hb ->] | [[Hb ->] | [[Hb ->]
                   | [[Hb ->] | [[Hb ->] | [[Hb ->] | [Hb ->]]]]]]]]];
      unfold field_fails; cbn [path];
      repeat (rewrite bool_decide_eq_false_2 by discriminate);
      rewrite bool_decide_eq_true_2 by reflexivity;
      try (by apply bool_decide_eq_false in Hb); auto.
    destruct (body_company body) as [c|]; [|done]. by exists c.
  - unfold field_fails. intros Hfails.
    repeat case_bool_decide; subst; try done;
      setoid_rewrite elem_of_app; setoid_rewrite elem_of_app;
      repeat setoid_rewrite elem_of_app;
      repeat setoid_rewrite elem_of_error; unfold isIn.
    + destruct Hfails as [Hb | Hb]; eexists; split; eauto 10.
    + eexists; split; eauto 10.
    + eexists; split; eauto 10.
    + destruct Hfails as (c & -> & Hb). eexists; split; eauto 10.
    + apply (bool_decide_eq_false_2 _) in Hfails. eexists; split; eauto 10.
    + apply (bool_decide_eq_false_2 _) in Hfails. eexists; split; eauto 12.
    + apply (bool_decide_eq_false_2 _) in Hfails. eexists; split; eauto 12.
    + eexists; split; [do 8 right; split; [eassumption|reflexivity]|reflexivity].
Qed.

(** X2: the errors of validation name a field exactly when that field
    breaks its rule: the length or the character set for [name], the email
    and phone shapes, the length of a company that is present, membership
    of the closed sets, and the length of the description. *)
Theorem errors_by_field (body : ReqBody) (field : string) :
  (∃ e, e ∈ (validateQuote body).2 ∧ path e = field) ↔ field_fails field body.
Proof. apply field_error_iff. Qed.

(** X3: Create answers 400 exactly when some field breaks its rule, and
    then it returns the errors of validation and leaves the whole world as
    it was: nothing is read, written or mailed. *)
Theorem create_400_iff (env : Env) (body : ReqBody) (w : World) :
  (∃ field, field_fails field body)
  ↔ post_quotes env body w
    = (Ret (mkResponse 400
              (PValidation "Validation failed" (validateQuote body).2)), w).
Proof.
  split.
  - intros (field & (e & He & _)%field_error_iff).
    apply post_quotes_invalid. intros Hnil. rewrite Hnil in He.
    by apply not_elem_of_nil in He.
  - intros Hpost.
    destruct (validateQuote body).2 as [|e errors] eqn:Herrors.
    + rewrite post_quotes_valid in Hpost by done.
      destruct (env_write_ok env); discriminate Hpost.
    + exists (path e). apply field_error_iff. exists e.
      rewrite Herrors. split; [by left|done].
Qed.
End ValidationByField.

(** ** The mutating handlers, case by case *)

Lemma patch_status_run env req_id status_ w :
  patch_status env req_id status_ w
  = if negb (includes valid_statuses status_)
    then (Ret (mkResponse 400 (PMessage false "Invalid status")), w)
    else match find_by_id req_id (stored w) with
         | None =>
             (Ret (mkResponse 404 (PMessage false "Quote not found")),
              after_read w)
         | Some (i, q) =>
             let q' := with_status (default [] status_) (env_now1 env) q in
             if env_write_ok env
             then (Ret (mkResponse 200
                          (PUpdated "Quote status updated successfully" q')),
                   mkWorld (Readable (<[i := q']> (stored w)))
                     (console (after_read w)) (outbox w))
             else (Ret (mkResponse 500
                          (PMessage false "Failed to update quote status")),
                   mkWorld (data_file w)
                     (console (after_read w)
                      ++ ["Error writing quotes file:"%string])
                     (outbox w))
         end.
Proof.
  unfold patch_status. destruct (negb (includes valid_statuses status_)); [done|].
  step_read. destruct (find_by_id req_id (stored w)) as [[i q]|]; [|done].
  destruct (env_write_ok env) eqn:Hok.
  - step_saved Hok. by rewrite outbox_after_read.
  - step_failed Hok. by rewrite data_file_after_read, outbox_after_read.
Qed.

Lemma delete_quote_run env req_id w :
  delete_quote env req_id w
  = match find_by_id req_id (stored w) with
    | None =>
        (Ret (mkResponse 404 (PMessage false "Quote not found")), after_read w)
    | Some (i, _) =>
        if env_write_ok env
        then (Ret (mkResponse 200 (PMessage true "Quote deleted successfully")),
              mkWorld (Readable (delete i (stored w)))
                (console (after_read w)) (outbox w))
        else (Ret (mkResponse 500 (PMessage false "Failed to delete quote")),
              mkWorld (data_file w)
                (console (after_read w) ++ ["Error writing quotes file:"%string])
                (outbox w))
    end.
Proof.
  unfold delete_quote. step_read.
  destruct (find_by_id req_id (stored w)) as [[i q]|]; [|done].
  destruct (env_write_ok env) eqn:Hok.
  - step_saved Hok. by rewrite outbox_after_read.
  - step_failed Hok. by rewrite data_file_after_read, outbox_after_read.
Qed.


(** ** Counting by status *)

Lemma count_status_app s l1 l2 :
  count_status s (l1 ++ l2) = (count_status s l1 + count_status s l2)%nat.
Proof. unfold count_status. by rewrite filter_app, length_app. Qed.

Lemma count_status_middle s l i q :
  l !! i = Some q →
  count_status s l
  = ((if bool_decide (status q = js s) then 1 else 0)
     + count_status s (delete i l))%nat.
Proof.
  intros Hi. rewrite delete_take_drop.
  rewrite <- (take_drop_middle l i q Hi) at 1.
  rewrite !count_status_app, count_status_cons. lia.
Qed.

Lemma delete_insert_same (l : list Quote) i q' :
  delete i (<[i := q']> l) = delete i l.
Proof.
  revert i. induction l as [|x l IH]; intros [|i]; simpl; try done.
  by rewrite IH.
Qed.

Section Responses.
Context `{ValidatorLib} `{DateLib}.

(** X4: on any file system, whenever a handler answers, it has handed
    the notification mail over exactly when the answer is 201, and then for
    the record just created; with every other answer the outbox is as it
    was. *)
Theorem mail_exactly_on_201 {FS : FileSystem} (env : Env) (req : Request)
    (w w' : World) (r : Response) :
  handle env req w = (Ret r, w') →
  if bool_decide (code r = 201%nat)
  then ∃ body, req = Create body
               ∧ outbox w' = outbox w ++ [new_quote env body]
  else outbox w' = outbox w.
Proof.
  destruct req as [body|query|req_id|req_id status_|req_id|]; simpl.
  - destruct (decide ((validateQuote body).2 = [])) as [Hvalid|Hinvalid].
    + rewrite post_quotes_valid_on by done.
      destruct (env_write_ok env); intros [= <- <-]; simpl; [by exists body|done].
    + rewrite post_quotes_invalid_on by done. by intros [= <- <-].
  - rewrite get_quotes_run. intros [= <- <-]. apply outbox_after_read.
  - rewrite get_quote_run.
    destruct (find_by_id req_id (stored w)) as [[i q]|];
      intros [= <- <-]; apply outbox_after_read.
  - rewrite patch_status_run_on.
    destruct (negb (includes valid_statuses status_)); [by intros [= <- <-]|].
    destruct (find_by_id req_id (stored w)) as [[i q]|].
    + cbv zeta. destruct (env_write_ok env); by intros [= <- <-].
    + intros [= <- <-]. apply outbox_after_read.
  - rewrite delete_quote_run_on.
    destruct (find_by_id req_id (stored w)) as [[i q]|].
    + destruct (env_write_ok env); by intros [= <- <-].
    + intros [= <- <-]. apply outbox_after_read.
  - rewrite get_stats_run. intros [= <- <-]. apply outbox_after_read.
Qed.

(** X5: List, Get and Stats never change the data file or the outbox, they
    leave the whole world as it is when the file is readable, and asking
    again gives the same answer. *)
Theorem reads_change_nothing (env env' : Env) (req : Request) (w : World) :
  (∃ query, req = List query) ∨ (∃ req_id, req = Get req_id) ∨ req = GetStats →
  data_file (handle env req w).2 = data_file w
  ∧ outbox (handle env req w).2 = outbox w
  ∧ (∀ quotes, data_file w = Readable quotes → (handle env req w).2 = w)
  ∧ (handle env' req (handle env req w).2).1 = (handle env req w).1.
Proof.
  intros [[query ->] | [[req_id ->] | ->]]; simpl.
  - rewrite !get_quotes_run. simpl.
    rewrite data_file_after_read, outbox_after_read, stored_after_read.
    repeat split. intros quotes Hfile. by eapply after_read_readable.
  - rewrite !get_quote_run. simpl.
    rewrite data_file_after_read, outbox_after_read, stored_after_read.
    repeat split. intros quotes Hfile. by eapply after_read_readable.
  - rewrite !get_stats_run. simpl.
    rewrite data_file_after_read, outbox_after_read, stored_after_read.
    repeat split. intros quotes Hfile. by eapply after_read_readable.
Qed.

(** X6: a data file that cannot be read is served as an empty collection:
    List returns the empty array, Stats returns zeros, Get answers 404; each
    writes one line on the console and leaves the file as it is. *)
Theorem unreadable_served_as_empty (query : Query) (req_id : jstring) (w : World) :
  data_file w = Unreadable →
  let w' := mkWorld Unreadable
              (console w ++ ["Error reading quotes file:"%string]) (outbox w) in
  get_quotes query w = (Ret (mkResponse 200 (PList [] 0)), w')
  ∧ get_stats w = (Ret (mkResponse 200 (PStats (mkStats 0 0 0 0 0 0 0))), w')
  ∧ get_quote req_id w
    = (Ret (mkResponse 404 (PMessage false "Quote not found")), w').
Proof.
  intros Hfile. rewrite get_quotes_run, get_stats_run, get_quote_run.
  rewrite list_quotes_unfold.
  unfold stored, after_read. rewrite Hfile. cbv zeta.
  split; [|split]; reflexivity.
Qed.
End Responses.

(** ** Get *)

(** X7: Get answers 200 exactly when the store holds a record with the id,
    and then returns the first such record in stored order; otherwise it
    answers 404. *)
Theorem get_first_match (req_id : jstring) (w : World) :
  (req_id ∈ id <$> stored w →
   ∃ i q,
     stored w !! i = Some q ∧ id q = req_id
     ∧ (∀ j q', stored w !! j = Some q' → (j < i)%nat → id q' ≠ req_id)
     ∧ get_quote req_id w = (Ret (mkResponse 200 (PQuote q)), after_read w))
  ∧ (req_id ∉ id <$> stored w →
     get_quote req_id w
     = (Ret (mkResponse 404 (PMessage false "Quote not found")), after_read w)).
Proof.
  rewrite get_quote_run. split.
  - intros Hin.
    destruct (find_by_id_present _ _ Hin) as (i & q & Hfind & Hi & Hid).
    exists i, q. rewrite Hfind. split; [done|]. split; [done|]. split; [|done].
    unfold find_by_id in Hfind. apply list_find_Some in Hfind as (_ & _ & Hfirst).
    exact Hfirst.
  - intros Hout. apply find_by_id_None in Hout. by rewrite Hout.
Qed.

(** ** How the mutations compose with Get and Stats *)

(** Evaluates the comparisons of two literal statuses. *)
Ltac eval_bool_decide :=
  repeat match goal with
         | |- context [@bool_decide ?P ?d] =>
             let b := eval vm_compute in (@bool_decide P d) in
             change (@bool_decide P d) with b
         end.

(** X8: a Create that succeeds appends its record at the end of the stored
    collection, which it takes as empty when the file was unreadable, and
    Stats afterwards shows the total and the count of [new] one higher and
    the other counts as before. *)
Theorem create_appends `{ValidatorLib} (env : Env) (body : ReqBody) (w : World) :
  (validateQuote body).2 = [] →
  env_write_ok env = true →
  ∃ w',
    post_quotes env body w
    = (Ret (mkResponse 201
              (PCreated "Quote request submitted successfully" (env_uuid env))), w')
    ∧ data_file w' = Readable (stored w ++ [new_quote env body])
    ∧ get_stats w'
      = (Ret (mkResponse 200
                (PStats
                   (mkStats (S (stats_total (stats_of (stored w))))
                      (S (stats_new (stats_of (stored w))))
                      (stats_reviewed (stats_of (stored w)))
                      (stats_contacted (stats_of (stored w)))
                      (stats_quoted (stats_of (stored w)))
                      (stats_accepted (stats_of (stored w)))
                      (stats_rejected (stats_of (stored w)))))), w').
Proof.
  intros Hvalid Hok. rewrite post_quotes_valid, Hok by done.
  eexists. split; [reflexivity|]. split; [reflexivity|].
  rewrite get_stats_run. cbn [stored data_file after_read].
  rewrite !count_status_app, !count_status_cons, length_app.
  unfold stats_of, new_quote. cbn [status stats_total stats_new stats_reviewed
    stats_contacted stats_quoted stats_accepted stats_rejected length].
  eval_bool_decide. cbv iota.
  change (count_status "new" []) with 0%nat.
  change (count_status "reviewed" []) with 0%nat.
  change (count_status "contacted" []) with 0%nat.
  change (count_status "quoted" []) with 0%nat.
  change (count_status "accepted" []) with 0%nat.
  change (count_status "rejected" []) with 0%nat.
  by rewrite !Nat.add_0_r, !Nat.add_1_r.
Qed.


(** X10: an UpdateStatus that succeeds keeps the number of records and
    moves one record from the count of its old status to the count of the
    new one. *)
Theorem update_moves_count (env : Env) (req_id s : jstring) (w : World) :
  s ∈ valid_statuses →
  req_id ∈ id <$> stored w →
  env_write_ok env = true →
  ∃ i q,
    stored w !! i = Some q ∧ id q = req_id
    ∧ length (stored (patch_status env req_id (Some s) w).2)
      = length (stored w)
    ∧ ∀ t,
        (count_status t (stored (patch_status env req_id (Some s) w).2)
         + (if bool_decide (status q = js t) then 1 else 0)
         = count_status t (stored w)
           + (if bool_decide (s = js t) then 1 else 0))%nat.
Proof.
  intros Hs Hpresent Hok.
  destruct (find_by_id_present _ _ Hpresent) as (i & q & Hfind & Hi & Hid).
  exists i, q. rewrite patch_status_run, includes_true, Hfind, Hok by done.
  change (default [] (Some s)) with s.
  cbn [negb snd stored data_file]. split; [done|]. split; [done|].
  split; [apply length_insert|].
  intros t.
  rewrite (count_status_middle t (stored w) i q Hi).
  rewrite (count_status_middle t (<[i := _]> (stored w)) i
             (with_status s (env_now1 env) q)).
  - rewrite delete_insert_same. cbn [with_status status]. lia.
  - apply list_lookup_insert_eq. by eapply lookup_lt_Some.
Qed.

(** X11: a Delete that succeeds removes the first record with the id and
    nothing else: the records before and after it stay in their order, the
    collection is one shorter, and only the count of the removed record's
    status drops, by one. *)
Theorem delete_effect (env : Env) (req_id : jstring) (w : World) :
  req_id ∈ id <$> stored w →
  env_write_ok env = true →
  ∃ i q,
    stored w !! i = Some q ∧ id q = req_id
    ∧ (∀ j q', stored w !! j = Some q' → (j < i)%nat → id q' ≠ req_id)
    ∧ data_file (delete_quote env req_id w).2
      = Readable (take i (stored w) ++ drop (S i) (stored w))
    ∧ length (stored w) = S (length (stored (delete_quote env req_id w).2))
    ∧ ∀ t,
        count_status t (stored w)
        = ((if bool_decide (status q = js t) then 1 else 0)
           + count_status t (stored (delete_quote env req_id w).2))%nat.
Proof.
  intros Hpresent Hok.
  destruct (find_by_id_present _ _ Hpresent) as (i & q & Hfind & Hi & Hid).
  exists i, q. rewrite delete_quote_run, Hfind, Hok.
  cbn [snd stored data_file]. split; [done|]. split; [done|].
  split; [|split; [|split]].
  - unfold find_by_id in Hfind.
    apply list_find_Some in Hfind as (_ & _ & Hfirst). exact Hfirst.
  - by rewrite delete_take_drop.
  - rewrite length_delete by eauto. apply lookup_lt_Some in Hi. lia.
  - intros t. by apply count_status_middle.
Qed.

(** X12: when the write fails, UpdateStatus and Delete of a record that is
    present answer 500 and leave the data file and the outbox as they
    were. *)
Theorem mutation_write_failure (env : Env) (req_id : jstring) (w : World) :
  env_write_ok env = false →
  req_id ∈ id <$> stored w →
  (∀ s, s ∈ valid_statuses →
        ∃ w',
          patch_status env req_id (Some s) w
          = (Ret (mkResponse 500
                    (PMessage false "Failed to update quote status")), w')
          ∧ data_file w' = data_file w ∧ outbox w' = outbox w)
  ∧ ∃ w',
      delete_quote env req_id w
      = (Ret (mkResponse 500 (PMessage false "Failed to delete quote")), w')
      ∧ data_file w' = data_file w ∧ outbox w' = outbox w.
Proof.
  intros Hok Hpresent.
  destruct (find_by_id_present _ _ Hpresent) as (i & q & Hfind & Hi & Hid).
  split.
  - intros s Hs. rewrite patch_status_run, includes_true, Hfind, Hok by done.
    eexists. by repeat split.
  - rewrite delete_quote_run, Hfind, Hok. eexists. by repeat split.
Qed.

(** ** Invariants over runs *)

Section RunInvariants.
Context `{ValidatorLib} `{DateLib}.

(** X13: whatever requests the server has answered since the data file was
    created, every stored status is one of the six of the closed set. *)
Theorem statuses_stay_valid (reqs : list (Env * Request)) :
  Forall (λ q, status q ∈ valid_statuses) (stored (run reqs initial_world)).
Proof. apply run_statuses. constructor. Qed.

(** X14: the ids of the stored records stay distinct over a run in which
    every Create draws an id that the store does not hold at that
    moment. *)
Theorem ids_stay_distinct (reqs : list (Env * Request)) (w : World) :
  NoDup (id <$> stored w) →
  fresh_ids reqs w →
  NoDup (id <$> stored (run reqs w)).
Proof.
  revert w. induction reqs as [|[env req] reqs IH]; intros w Hnd Hfresh; simpl.
  - done.
  - destruct Hfresh as [Hnow Hlater]. apply IH; [|done].
    by apply handle_ids.
Qed.

Lemma handle_dates_create env req w :
  Forall (λ q, is_Some (Date_parse (createdAt q))) (stored w) →
  (∀ body, req = Create body → is_Some (Date_parse (env_now1 env))) →
  Forall (λ q, is_Some (Date_parse (createdAt q))) (stored (handle env req w).2).
Proof.
  intros Hdates Hnow. apply Forall_forall. intros q' Hq'.
  apply handle_frame in Hq' as [(q & Hq & Hsame) | (body & Hreq & ->)].
  - rewrite Forall_forall in Hdates.
    destruct Hsame as (_ & _ & _ & _ & _ & _ & _ & _ & _ & <-). by apply Hdates.
  - by apply (Hnow body).
Qed.

Lemma run_dates reqs w :
  Forall (λ q, is_Some (Date_parse (createdAt q))) (stored w) →
  valid_clocks reqs →
  Forall (λ q, is_Some (Date_parse (createdAt q))) (stored (run reqs w)).
Proof.
  revert w. induction reqs as [|[env req] reqs IH]; intros w Hdates Hclocks.
  - done.
  - apply Forall_cons in Hclocks as [Hnow Hlater]. simpl.
    apply IH; [|done]. by apply handle_dates_create.
Qed.
End RunInvariants.

(** ** Order of List *)

Section SortStable.
Context {A : Type} (comparefn : A → A → option Z).
Context (P : A → Prop) `{!∀ x, Decision (P x)}.
Hypothesis apart : ∀ x y, P x → (0 < sort_compare comparefn x y)%Z → ¬ P y.

Lemma sort_insert_filter x l :
  filter P (sort_insert comparefn x l) = filter P (x :: l).
Proof.
  induction l as [|y l IH]; simpl; [done|].
  destruct (Z.leb_spec (sort_compare comparefn x y) 0) as [Hle|Hgt]; [done|].
  rewrite (filter_cons _ y), IH, !(filter_cons _ x), (filter_cons _ y).
  destruct (decide (P x)) as [Hx|Hx]; [|done].
  destruct (decide (P y)) as [Hy|Hy]; [|done].
  by destruct (apart x y Hx Hgt).
Qed.

Lemma Array_sort_filter l :
  filter P (Array_sort comparefn l) = filter P l.
Proof.
  induction l as [|x l IH]; simpl; [done|].
  by rewrite sort_insert_filter, !filter_cons, IH.
Qed.
End SortStable.

Lemma Array_sort_ties_on {A} (comparefn : A → A → option Z) (l : list A) :
  (∀ x y, x ∈ l → y ∈ l → sort_compare comparefn x y = 0%Z) →
  Array_sort comparefn l = l.
Proof.
  induction l as [|x l IH]; intros Hties; simpl; [done|].
  rewrite IH.
  - destruct l as [|y l']; simpl; [done|].
    rewrite Hties; [done|by left|by right; left].
  - intros a b Ha Hb. apply Hties; by right.
Qed.

Section ListOrder.
Context `{DateLib}.

Lemma compareFn_ascending order a b ta tb :
  order ≠ js "desc" →
  created_time a = Some ta → created_time b = Some tb →
  sort_compare (compareFn (js "createdAt") order) a b = (ta - tb)%Z.
Proof.
  unfold created_time, sort_compare, compareFn. intros Horder Ha Hb.
  change (property (js "createdAt") a) with (Some (createdAt a)).
  change (property (js "createdAt") b) with (Some (createdAt b)).
  rewrite bool_decide_eq_false_2 by done. simpl. by rewrite Ha, Hb.
Qed.

Lemma older_first_trans a b c :
  older_first a b → older_first b c → older_first a c.
Proof.
  unfold older_first.
  destruct (created_time a), (created_time b), (created_time c); try done.
  lia.
Qed.

Lemma list_quotes_newest_first status_ projectType_ quotes :
  Forall (λ q, is_Some (Date_parse (createdAt q))) quotes →
  StronglySorted newer_first
    (list_quotes (mkQuery status_ projectType_ None None) quotes).
Proof.
  intros Hdates. rewrite list_quotes_unfold. simpl.
  apply (Array_sort_sorted _ newer_first (λ q, is_Some (created_time q))).
  - apply newer_first_trans.
  - intros a b [ta Ha] [tb Hb]. rewrite (compareFn_default a b ta tb) by done.
    unfold newer_first. rewrite Ha, Hb. lia.
  - intros a b [ta Ha] [tb Hb]. rewrite (compareFn_default a b ta tb) by done.
    unfold newer_first. rewrite Ha, Hb. lia.
  - apply Forall_forall. intros q [_ Hq]%list_elem_of_filter.
    rewrite Forall_forall in Hdates. by apply Hdates.
Qed.

(** X15: in every world reached from the empty store by requests whose
    Creates read valid dates from the clock, List without parameters
    returns all stored records, newest first. *)
Theorem reachable_list_newest_first `{ValidatorLib}
    (reqs : list (Env * Request)) :
  valid_clocks reqs →
  ∃ l w',
    get_quotes (mkQuery None None None None) (run reqs initial_world)
    = (Ret (mkResponse 200 (PList l (length l))), w')
    ∧ l ≡ₚ stored (run reqs initial_world)
    ∧ StronglySorted newer_first l.
Proof.
  intros Hclocks. rewrite get_quotes_run. eexists _, _.
  split; [reflexivity|]. split.
  - rewrite list_quotes_unfold, Array_sort_perm. simpl.
    induction (stored _) as [|q quotes IH]; [done|].
    rewrite filter_cons_True, IH; [done|]. split; left; by left.
  - apply list_quotes_newest_first, run_dates; [constructor|done].
Qed.

(** X16: with an [order] other than [desc] and the default [sortBy], List
    returns the selected records oldest first, when every stored
    [createdAt] is a valid date. *)
Theorem list_ascending (status_ projectType_ : option jstring)
    (order : jstring) (w : World) :
  order ≠ js "desc" →
  Forall (λ q, is_Some (Date_parse (createdAt q))) (stored w) →
  ∃ l w',
    get_quotes (mkQuery status_ projectType_ None (Some order)) w
    = (Ret (mkResponse 200 (PList l (length l))), w')
    ∧ l ≡ₚ filter (satisfies status_ projectType_) (stored w)
    ∧ StronglySorted older_first l.
Proof.
  intros Horder Hdates. rewrite get_quotes_run, list_quotes_unfold. simpl.
  eexists _, _. split; [reflexivity|]. split; [apply Array_sort_perm|].
  apply (Array_sort_sorted _ older_first (λ q, is_Some (created_time q))).
  - apply older_first_trans.
  - intros a b [ta Ha] [tb Hb].
    rewrite (compareFn_ascending order a b ta tb) by done.
    unfold older_first. rewrite Ha, Hb. lia.
  - intros a b [ta Ha] [tb Hb].
    rewrite (compareFn_ascending order a b ta tb) by done.
    unfold older_first. rewrite Ha, Hb. lia.
  - apply Forall_forall. intros q [_ Hq]%list_elem_of_filter.
    rewrite Forall_forall in Hdates. by apply Hdates.
Qed.

Lemma compareFn_apart order t a b :
  created_time a = Some t →
  (0 < sort_compare (compareFn (js "createdAt") order) a b)%Z →
  created_time b ≠ Some t.
Proof.
  unfold created_time, sort_compare, compareFn. intros Ha.
  change (property (js "createdAt") a) with (Some (createdAt a)).
  change (property (js "createdAt") b) with (Some (createdAt b)).
  simpl. rewrite Ha.
  destruct (Date_parse (createdAt b)) as [tb|];
    destruct (bool_decide (order = js "desc")); simpl; intros Hpos [= ->]; lia.
Qed.

(** X17: when every stored [createdAt] is a valid date, List sorted by
    [createdAt], in either order, keeps the records that carry the same
    date in the order in which they are stored. *)
Theorem list_sort_stable (status_ projectType_ order : option jstring)
    (quotes : list Quote) (t : Z) :
  Forall (λ q, is_Some (Date_parse (createdAt q))) quotes →
  filter (λ q, created_time q = Some t)
    (list_quotes (mkQuery status_ projectType_ None order) quotes)
  = filter (λ q, created_time q = Some t)
      (filter (satisfies status_ projectType_) quotes).
Proof.
  intros _. rewrite list_quotes_unfold. apply Array_sort_filter.
  intros a b Ha Hpos. by eapply compareFn_apart.
Qed.

(** X18: when no stored record has a valid date in the field named by
    [sortBy], as for a field holding names or enumeration values, List
    returns the selected records in their stored order, whatever the
    [order]. *)
Theorem list_undated_field_keeps_order (status_ projectType_ order : option jstring)
    (sortBy : jstring) (w : World) :
  (∀ q, q ∈ stored w → new_Date (property sortBy q) = None) →
  ∃ w',
    get_quotes (mkQuery status_ projectType_ (Some sortBy) order) w
    = (Ret (mkResponse 200
              (PList (filter (satisfies status_ projectType_) (stored w))
                 (length (filter (satisfies status_ projectType_) (stored w))))),
       w').
Proof.
  intros Hnodate. rewrite get_quotes_run, list_quotes_unfold. simpl.
  rewrite Array_sort_ties_on; [by eexists|].
  intros a b [_ Ha]%list_elem_of_filter [_ Hb]%list_elem_of_filter.
  unfold sort_compare, compareFn.
  rewrite (Hnodate a Ha), (Hnodate b Hb). by destruct (bool_decide _).
Qed.
End ListOrder.

(** Closes a membership in a literal list by evaluation. *)
Ltac by_membership :=
  match goal with
  | |- ?P => apply (bool_decide_eq_true_1 P); vm_compute; reflexivity
  end.

(** ** Regular expressions: the test decides the language *)

Lemma nullable_lang r : nullable r = true ↔ lang r [].
Proof.
  split.
  - induction r; simpl; try done; intros Hn.
    + constructor.
    + apply andb_true_iff in Hn as [Hr Hs].
      apply (lang_seq _ _ [] []); auto.
    + apply orb_true_iff in Hn as [Hr | Hs];
        [apply lang_alt_l | apply lang_alt_r]; auto.
    + constructor.
  - intros Hl. remember [] as t eqn:Ht.
    induction Hl; simpl; try done.
    + apply app_eq_nil in Ht as [-> ->]. rewrite IHHl1, IHHl2; done.
    + rewrite IHHl; done.
    + rewrite IHHl; [apply orb_true_r|done].
Qed.

Lemma lang_seq_inv r s t :
  lang (Seq r s) t → ∃ u v, t = u ++ v ∧ lang r u ∧ lang s v.
Proof. inversion 1; subst. eauto. Qed.

Lemma deriv_lang c r t : lang (deriv c r) t ↔ lang r (c :: t).
Proof.
  split.
  - revert t. induction r as [| |p|r IHr s IHs|r IHr s IHs|r IHr];
      simpl; intros t Hl.
    + inversion Hl.
    + inversion Hl.
    + destruct (p c) eqn:Hp; inversion Hl; subst. by constructor.
    + destruct (nullable r) eqn:Hn.
      * inversion Hl as [| | | ? ? ? Hl' | ? ? ? Hl' | |]; subst.
        -- apply lang_seq_inv in Hl' as (u & v & -> & Hu & Hv).
           apply (lang_seq _ _ (c :: u) v); auto.
        -- apply (lang_seq _ _ [] (c :: t)); [by apply nullable_lang|auto].
      * apply lang_seq_inv in Hl as (u & v & -> & Hu & Hv).
        apply (lang_seq _ _ (c :: u) v); auto.
    + inversion Hl; subst; [apply lang_alt_l | apply lang_alt_r]; auto.
    + apply lang_seq_inv in Hl as (u & v & -> & Hu & Hv).
      apply (lang_star_cons _ (c :: u) v); auto.
  - intros Hl. remember (c :: t) as ct eqn:Hct. revert c t Hct.
    induction Hl as [|p c' Hp|r s u v Hu IHu Hv IHv|r s u Hu IHu|r s u Hu IHu
                    |r|r u v Hu IHu Hv IHv]; intros c t Hct; simpl.
    + discriminate Hct.
    + injection Hct as -> <-. rewrite Hp. constructor.
    + destruct u as [|c0 u]; simpl in Hct.
      * subst v. apply nullable_lang in Hu. rewrite Hu.
        apply lang_alt_r. by apply IHv.
      * injection Hct as -> <-.
        assert (lang (Seq (deriv c r) s) (u ++ v)) as Hseq
          by (constructor; [by apply IHu|done]).
        destruct (nullable r); [by apply lang_alt_l|done].
    + apply lang_alt_l. by apply IHu.
    + apply lang_alt_r. by apply IHu.
    + discriminate Hct.
    + destruct u as [|c0 u]; simpl in Hct.
      * subst v. by apply IHv.
      * injection Hct as -> <-. constructor; [by apply IHu|done].
Qed.

Lemma regex_test_lang r s : regex_test r s = true ↔ lang r s.
Proof.
  revert r. induction s as [|c s IH]; intros r; simpl.
  - apply nullable_lang.
  - rewrite IH. apply deriv_lang.
Qed.

Lemma lang_class_inv p t : lang (Class p) t → ∃ c, t = [c] ∧ p c = true.
Proof. inversion 1; subst. eauto. Qed.

Lemma lang_star_class p t :
  lang (Star (Class p)) t ↔ ∀ c, c ∈ t → p c = true.
Proof.
  split.
  - intros Hl. remember (Star (Class p)) as r eqn:Hr.
    induction Hl; try discriminate Hr.
    + intros c Hc. by apply not_elem_of_nil in Hc.
    + injection Hr as ->. apply lang_class_inv in Hl1 as (c0 & -> & Hp).
      intros c [-> | Hc]%elem_of_cons; [done|]. by apply IHHl2.
  - induction t as [|c t IH]; intros Hall; [constructor|].
    apply (lang_star_cons _ [c] t).
    + constructor. apply Hall. by left.
    + apply IH. intros c' Hc'. apply Hall. by right.
Qed.

Lemma lang_plus_class p t :
  lang (Plus (Class p)) t ↔ t ≠ [] ∧ ∀ c, c ∈ t → p c = true.
Proof.
  unfold Plus. split.
  - intros (u & v & -> & (c & -> & Hp)%lang_class_inv & Hv)%lang_seq_inv.
    split; [done|]. intros c' [-> | Hc']%elem_of_cons; [done|].
    by apply (proj1 (lang_star_class p v)).
  - intros [Hne Hall]. destruct t as [|c t]; [done|].
    apply (lang_seq _ _ [c] t).
    + constructor. apply Hall. by left.
    + apply lang_star_class. intros c' Hc'. apply Hall. by right.
Qed.

(** ** The form script *)

(** X19: the email check of the form accepts exactly the strings made of
    a non-empty part, an at sign, a non-empty part, a dot and a non-empty
    part, where no part holds white space or an at sign. *)
Theorem emailRegex_accepts (s : jstring) :
  regex_test emailRegex s = true
  ↔ ∃ u v w,
      s = u ++ [64] ++ v ++ [46] ++ w
      ∧ u ≠ [] ∧ v ≠ [] ∧ w ≠ []
      ∧ ∀ c, c ∈ u ++ v ++ w → is_space c = false ∧ c ≠ 64.
Proof.
  rewrite regex_test_lang. unfold emailRegex. split.
  - intros (u & t1 & -> & Hu & Ht1)%lang_seq_inv.
    apply lang_seq_inv in Ht1 as (a & t2 & -> & Ha & Ht2).
    apply lang_seq_inv in Ht2 as (v & t3 & -> & Hv & Ht3).
    apply lang_seq_inv in Ht3 as (d & w & -> & Hd & Hw).
    apply lang_class_inv in Ha as (ca & -> & ->%N.eqb_eq).
    apply lang_class_inv in Hd as (cd & -> & ->%N.eqb_eq).
    apply lang_plus_class in Hu as [Hu Hcu], Hv as [Hv Hcv], Hw as [Hw Hcw].
    exists u, v, w. split; [done|]. split; [done|]. split; [done|].
    split; [done|]. intros c Hc.
    assert (not_space_at c = true) as Hclass.
    { rewrite !elem_of_app in Hc. destruct Hc as [Hc|[Hc|Hc]]; auto. }
    unfold not_space_at in Hclass.
    apply negb_true_iff, orb_false_iff in Hclass as [Hs Hat].
    split; [done|]. by apply N.eqb_neq in Hat.
  - intros (u & v & w & -> & Hu & Hv & Hw & Hall).
    assert (∀ c, c ∈ u ++ v ++ w → not_space_at c = true) as Hclass.
    { intros c Hc. destruct (Hall c Hc) as [Hs Hat].
      unfold not_space_at. rewrite Hs. simpl.
      apply negb_true_iff. by apply N.eqb_neq. }
    apply lang_seq.
    { apply lang_plus_class. split; [done|].
      intros c Hc. apply Hclass. rewrite elem_of_app. by left. }
    apply (lang_seq _ _ [64]); [by constructor|].
    apply lang_seq.
    { apply lang_plus_class. split; [done|].
      intros c Hc. apply Hclass. rewrite !elem_of_app. by right; left. }
    apply (lang_seq _ _ [46]); [by constructor|].
    apply lang_plus_class. split; [done|].
    intros c Hc. apply Hclass. rewrite !elem_of_app. by right; right.
Qed.

Lemma truthy_Some v : truthy v = true → ∃ s, v = Some s ∧ s ≠ [].
Proof.
  destruct v as [s|]; [|done]. simpl. intros Hs%negb_true_iff.
  apply bool_decide_eq_false in Hs. by exists s.
Qed.

Lemma submit_form_inv formData body :
  submit_form formData = Submit body →
  ∃ fn ln em pt de,
    form_firstName formData = Some fn ∧ fn ≠ []
    ∧ form_lastName formData = Some ln ∧ ln ≠ []
    ∧ form_email formData = Some em ∧ regex_test emailRegex em = true
    ∧ form_projectType formData = Some pt ∧ pt ≠ []
    ∧ form_description formData = Some de ∧ de ≠ []
    ∧ body
      = mkBody (trim (fn ++ js " " ++ ln)) em
          (or_else (form_phone formData) [])
          (Some (or_else (form_company formData) []))
          pt (or_else (form_budget formData) (js "under-5k"))
          (or_else (form_timeline formData) (js "flexible")) de.
Proof.
  unfold submit_form.
  destruct (truthy (form_firstName formData)) eqn:H1; [|done].
  destruct (truthy (form_lastName formData)) eqn:H2; [|done].
  destruct (truthy (form_email formData)) eqn:H3; [|done].
  destruct (truthy (form_projectType formData)) eqn:H4; [|done].
  destruct (truthy (form_description formData)) eqn:H5; [|done].
  apply truthy_Some in H1 as (fn & E1 & Hfn), H2 as (ln & E2 & Hln),
    H3 as (em & E3 & Hem), H4 as (pt & E4 & Hpt), H5 as (de & E5 & Hde).
  rewrite E1, E2, E3, E4, E5. simpl.
  destruct (regex_test emailRegex em) eqn:Hre; [|done]. simpl.
  intros [= <-]. exists fn, ln, em, pt, de. by repeat split.
Qed.

(** X20: when the submit listener sends a request, the first name, the
    last name, the email, the project type and the description of the form
    are non-empty, the email passes the form's check, and the name it sends
    is already trimmed, so that the server stores that name as sent. *)
Theorem form_request_shape `{ValidatorLib} (formData : FormData)
    (body : ReqBody) (env : Env) :
  submit_form formData = Submit body →
  (∃ fn ln,
     form_firstName formData = Some fn ∧ fn ≠ []
     ∧ form_lastName formData = Some ln ∧ ln ≠ []
     ∧ body_name body = trim (fn ++ js " " ++ ln))
  ∧ regex_test emailRegex (body_email body) = true
  ∧ body_projectType body ≠ [] ∧ body_description body ≠ []
  ∧ is_Some (body_company body)
  ∧ name (new_quote env body) = body_name body.
Proof.
  intros (fn & ln & em & pt & de & E1 & Hfn & E2 & Hln & E3 & Hem & E4 & Hpt
          & E5 & Hde & ->)%submit_form_inv.
  cbn [body_name body_email body_projectType body_description body_company
       new_quote name].
  split; [by exists fn, ln|]. repeat split; try done.
  apply trim_idemp.
Qed.

(** X21: a form that leaves the budget or the timeline empty is sent with
    [under-5k] or [flexible], which pass the server's checks of these two
    fields. *)
Theorem form_defaults_pass `{ValidatorLib} (formData : FormData) (body : ReqBody) :
  submit_form formData = Submit body →
  (truthy (form_budget formData) = false → ¬ field_fails "budget" body)
  ∧ (truthy (form_timeline formData) = false → ¬ field_fails "timeline" body).
Proof.
  intros (fn & ln & em & pt & de & _ & _ & _ & _ & _ & _ & _ & _ & _ & _
          & ->)%submit_form_inv.
  unfold field_fails, or_else. split; intros ->; simpl; intros Hout;
    apply Hout; by_membership.
Qed.

(** X22: the submit listener does not require a phone number, the server
    does: a form with an empty phone is sent, and Create answers 400 with an
    error naming [phone], provided the phone validator rejects the empty
    string. *)
Theorem form_without_phone_rejected `{ValidatorLib} (formData : FormData)
    (body : ReqBody) (env : Env) (w : World) :
  isMobilePhone [] = false →
  submit_form formData = Submit body →
  truthy (form_phone formData) = false →
  ∃ errors,
    post_quotes env body w
    = (Ret (mkResponse 400 (PValidation "Validation failed" errors)), w)
    ∧ mkError "phone" "Please provide a valid phone number" ∈ errors.
Proof.
  intros Hlib (fn & ln & em & pt & de & _ & _ & _ & _ & _ & _ & _ & _ & _ & _
               & ->)%submit_form_inv Hphone.
  set (body := mkBody _ _ _ _ _ _ _ _).
  assert (mkError "phone" "Please provide a valid phone number"
          ∈ (validateQuote body).2) as Hmem.
  { rewrite validateQuote_errors. rewrite !elem_of_app, !elem_of_error.
    do 3 right. left. split; [|done].
    unfold body, or_else. cbn [body_phone]. by rewrite Hphone. }
  exists (validateQuote body).2. split; [|done].
  apply post_quotes_invalid. intros Hnil. rewrite Hnil in Hmem.
  by apply not_elem_of_nil in Hmem.
Qed.

(** X23: [validateField] returns true exactly when a required field is
    non-empty after trimming and an email field that is non-empty after
    trimming passes the email check; a field it rejects ends marked invalid
    and not valid, a non-empty field it accepts ends marked valid and not
    invalid, and an empty field it accepts keeps its marks. *)
Theorem validateField_result (field : Field) :
  ((validateField field).1 = true
   ↔ (field_required field = true → trim (field_value field) ≠ [])
     ∧ (field_is_email field = true →
        trim (field_value field) ≠ [] →
        regex_test emailRegex (trim (field_value field)) = true))
  ∧ ((validateField field).1 = false →
     field_invalid (validateField field).2 = true
     ∧ field_valid (validateField field).2 = false)
  ∧ ((validateField field).1 = true →
     if bool_decide (trim (field_value field) = [])
     then (validateField field).2 = field
     else field_invalid (validateField field).2 = false
          ∧ field_valid (validateField field).2 = true).
Proof.
  unfold validateField. cbn [truthy].
  destruct (field_required field), (field_is_email field),
    (regex_test emailRegex (trim (field_value field)));
    destruct (decide (trim (field_value field) = [])) as [He|He];
    rewrite ?(bool_decide_eq_true_2 _ He), ?(bool_decide_eq_false_2 _ He);
    simpl; repeat split; try done; try (intros _; congruence);
    try (intros [Hr Hm]); auto;
    try (by destruct (Hr eq_refl));
    try (by discriminate (Hm eq_refl He)).
Qed.

(** ** The admin panel script *)

Lemma client_param_constraint (v : jstring) (x : jstring) :
  v ≠ [] →
  (no_constraint (client_param v) ∨ client_param v = Some x)
  ↔ (v = js "all" ∨ x = v).
Proof.
  intros Hne. unfold client_param. cbn [truthy].
  rewrite (bool_decide_eq_false_2 _ Hne). simpl.
  destruct (decide (v = js "all")) as [Hall|Hall].
  - rewrite (bool_decide_eq_true_2 _ Hall). simpl. split; [by left|].
    intros _. left. by left.
  - rewrite (bool_decide_eq_false_2 _ Hall). simpl. split.
    + intros [[Hn | [Hn | Hn]] | Hx]; try discriminate Hn.
      * injection Hn as ->. done.
      * injection Hn as ->. done.
      * injection Hx as ->. by right.
    + intros [Hv | ->]; [done|]. by right.
Qed.

Section AdminPanel.
Context `{DateLib}.

(** X24: for filter values that are not empty and hold no surrogates, as
    those of the two select boxes, the local filter that the panel falls back to selects the same
    records, each as often, as the server does for the query that
    [getQuoteRequests] builds from these values. *)
Theorem local_filter_agrees (status_ projectType_ : jstring)
    (quotes : list Quote) :
  plain status_ → plain projectType_ →
  status_ ≠ [] →
  projectType_ ≠ [] →
  list_quotes (client_query status_ projectType_) quotes
  ≡ₚ local_filter status_ projectType_ quotes.
Proof.
  intros _ _ Hs Hp. rewrite list_quotes_unfold, Array_sort_perm.
  unfold client_query, local_filter. cbn [query_status query_projectType].
  erewrite list_filter_iff; [reflexivity|].
  intros q. unfold satisfies.
  rewrite (client_param_constraint status_ (status q) Hs).
  rewrite (client_param_constraint projectType_ (projectType q) Hp).
  reflexivity.
Qed.

(** X25: the records that the API returns have no [timestamp], so the sort
    of [renderQuotes] moves nothing: the rows appear in the order in which
    the server returned the records. *)
Theorem render_keeps_server_order (filteredQuotes : list Quote) :
  render_order filteredQuotes = filteredQuotes.
Proof.
  unfold render_order. apply Array_sort_ties. intros a b.
  unfold sort_compare.
  rewrite !(property_unknown (js "timestamp")) by by_membership.
  reflexivity.
Qed.

Lemma count_status_outside t quotes :
  js t ∉ valid_statuses →
  Forall (λ q, status q ∈ valid_statuses) quotes →
  count_status t quotes = 0%nat.
Proof.
  intros Hout. induction 1 as [|q quotes Hq _ IH]; [done|].
  rewrite count_status_cons, IH.
  rewrite bool_decide_eq_false_2; [done|]. intros Heq. by rewrite Heq in Hq.
Qed.

Lemma count_status_selected t query quotes :
  (count_status t (list_quotes query quotes) ≤ count_status t quotes)%nat.
Proof.
  rewrite list_quotes_unfold. unfold count_status.
  rewrite Array_sort_perm, list_filter_filter.
  induction quotes as [|q quotes IH]; [done|].
  rewrite !filter_cons.
  destruct (decide (status q = js t ∧ _)) as [[Hst _]|Hno];
    destruct (decide (status q = js t)) as [Hq|Hq]; simpl; try lia.
  done.
Qed.

(** X26: in every world the server reaches from the empty store, the
    dashboard filled from the answers of Stats and of List, for any filter,
    shows the stored total and the stored count of [new], and shows 0 for
    In Progress and for Completed. *)
Theorem dashboard_counters `{ValidatorLib} (reqs : list (Env * Request))
    (query : Query) :
  ∃ s l w1 w2,
    get_stats (run reqs initial_world) = (Ret (mkResponse 200 (PStats s)), w1)
    ∧ get_quotes query (run reqs initial_world)
      = (Ret (mkResponse 200 (PList l (length l))), w2)
    ∧ updateStats s l
      = mkDashboard (length (stored (run reqs initial_world)))
          (count_status "new" (stored (run reqs initial_world))) 0 0.
Proof.
  rewrite get_stats_run, get_quotes_run.
  eexists _, _, _, _. split; [reflexivity|]. split; [reflexivity|].
  pose proof (run_statuses reqs initial_world (Forall_nil_2 _)) as Hvalid.
  set (quotes := stored (run reqs initial_world)) in *.
  assert (Forall (λ q, status q ∈ valid_statuses) (list_quotes query quotes))
    as Hsel.
  { rewrite list_quotes_unfold, Array_sort_perm.
    apply Forall_forall. intros q [_ Hq]%list_elem_of_filter.
    rewrite Forall_forall in Hvalid. by apply Hvalid. }
  unfold updateStats. cbn [stats_total stats_new].
  rewrite (count_status_outside "in-progress") by (done || by_membership).
  rewrite (count_status_outside "completed") by (done || by_membership).
  f_equal.
  - destruct quotes as [|q quotes'] eqn:Hq; [|done].
    simpl. by rewrite list_quotes_unfold.
  - pose proof (count_status_selected "new" query quotes) as Hle.
    destruct (count_status "new" quotes); simpl; [lia|done].
Qed.
End AdminPanel.

Lemma csv_escape_cons c d :
  (c :: d) ≫= (λ c, if c =? 34 then [34; 34] else [c])
  = (if c =? 34 then [34; 34] else [c])
    ++ (d ≫= λ c, if c =? 34 then [34; 34] else [c]).
Proof. reflexivity. Qed.

(** X27: the description column of the CSV export determines the
    description: two descriptions with the same column are equal. *)
Theorem csv_description_injective (d1 d2 : jstring) :
  csv_description d1 = csv_description d2 → d1 = d2.
Proof.
  unfold csv_description. intros Heq.
  injection Heq as Heq. apply app_inv_tail in Heq.
  revert d2 Heq. induction d1 as [|c1 d1 IH]; intros [|c2 d2] Heq.
  - done.
  - rewrite csv_escape_cons in Heq. destruct (c2 =? 34); discriminate Heq.
  - rewrite csv_escape_cons in Heq. destruct (c1 =? 34); discriminate Heq.
  - rewrite !csv_escape_cons in Heq.
    destruct (N.eqb_spec c1 34) as [-> | H1], (N.eqb_spec c2 34) as [-> | H2];
      simpl in Heq.
    + injection Heq as Heq. f_equal. by apply IH.
    + injection Heq as <- Heq. done.
    + injection Heq as -> Heq. done.
    + injection Heq as -> Heq. f_equal. by apply IH.
Qed.

(** ** Examples *)

(** Closes a decidable goal on concrete data by evaluation. *)
Ltac by_evaluation :=
  match goal with
  | |- ?P => apply (bool_decide_eq_true_1 P); vm_compute; reflexivity
  end.

Section Examples.
#[local] Existing Instance example_ValidatorLib.
#[local] Existing Instance example_DateLib.

(** C1, the claim as stated fails: a submission with a leading space in
    the name passes validation, Create answers 201, and the record that
    Get returns has a name different from the one submitted. *)
Lemma create_then_get_not_verbatim :
  (validateQuote jane).2 = []
  ∧ ∃ q w1,
      post_quotes (sample_env "u1" "2024-04-01T09:00:00.000Z" true) jane
        initial_world
      = (Ret (mkResponse 201
                (PCreated "Quote request submitted successfully" (js "u1"))), w1)
      ∧ get_quote (js "u1") w1 = (Ret (mkResponse 200 (PQuote q)), w1)
      ∧ name q ≠ body_name jane.
Proof.
  split; [vm_compute; reflexivity|].
  eexists _, _. split; [vm_compute; reflexivity|].
  split; [vm_compute; reflexivity|]. vm_compute. discriminate.
Qed.

(** Create and then Get on the sample store. *)
Lemma create_then_get_witness :
  ((validateQuote jane).2 = []
   ∧ env_write_ok (sample_env "u1" "2024-04-01T09:00:00.000Z" true) = true
   ∧ js "u1" ∉ id <$> stored sample_world)
  ∧ ∃ w1,
      post_quotes (sample_env "u1" "2024-04-01T09:00:00.000Z" true) jane
        sample_world
      = (Ret (mkResponse 201
                (PCreated "Quote request submitted successfully" (js "u1"))), w1)
      ∧ get_quote (js "u1") w1
        = (Ret (mkResponse 200
                  (PQuote (sample_quote "u1" "new" "2024-04-01T09:00:00.000Z"))),
           w1).
Proof.
  assert ((validateQuote jane).2 = []) as H1 by (vm_compute; reflexivity).
  assert (js "u1" ∉ id <$> stored sample_world) as H3 by by_evaluation.
  split; [by repeat split|].
  exact (create_then_get (sample_env "u1" "2024-04-01T09:00:00.000Z" true)
           jane sample_world H1 eq_refl H3).
Defined.

(** C6, the claim as stated fails: an empty [status] parameter is a
    provided value other than [all], no stored record has the empty status,
    and List returns the stored record all the same. *)
Lemma empty_status_filter_ignored :
  get_quotes (mkQuery (Some []) None None None)
    (mkWorld (Readable [sample_quote "a" "new" "2024-01-15T10:30:00.000Z"]) [] [])
  = (Ret (mkResponse 200
            (PList [sample_quote "a" "new" "2024-01-15T10:30:00.000Z"] 1)),
     mkWorld (Readable [sample_quote "a" "new" "2024-01-15T10:30:00.000Z"]) [] [])
  ∧ Some [] ≠ Some (js "all")
  ∧ status (sample_quote "a" "new" "2024-01-15T10:30:00.000Z") ≠ [].
Proof.
  split; [vm_compute; reflexivity|]. split; vm_compute; discriminate.
Qed.

(** UpdateStatus on the sample store: a status outside the set, an absent
    id, a present id. *)
Lemma update_status_witness :
  patch_status (sample_env "" "2024-04-02T09:00:00.000Z" true) (js "a")
    (Some (js "archived")) sample_world
  = (Ret (mkResponse 400 (PMessage false "Invalid status")), sample_world)
  ∧ (∃ w',
       patch_status (sample_env "" "2024-04-02T09:00:00.000Z" true) (js "zzz")
         (Some (js "quoted")) sample_world
       = (Ret (mkResponse 404 (PMessage false "Quote not found")), w')
       ∧ data_file w' = data_file sample_world)
  ∧ (∃ i q,
       stored sample_world !! i = Some q ∧ id q = js "b"
       ∧ patch_status (sample_env "" "2024-04-02T09:00:00.000Z" true) (js "b")
           (Some (js "accepted")) sample_world
         = (Ret (mkResponse 200
                   (PUpdated "Quote status updated successfully"
                      (with_status (js "accepted")
                         (js "2024-04-02T09:00:00.000Z") q))),
            mkWorld
              (Readable
                 (<[i := with_status (js "accepted")
                           (js "2024-04-02T09:00:00.000Z") q]>
                    (stored sample_world)))
              [] [])).
Proof.
  split; [|split].
  - apply (proj1 (update_status_cases _ _ _ _)).
    intros s [= <-]. by_evaluation.
  - apply (proj1 (proj2 (update_status_cases _ _ _ _)) (js "quoted") eq_refl).
    + by_evaluation.
    + by_evaluation.
  - apply (proj2 (proj2 (update_status_cases
                           (sample_env "" "2024-04-02T09:00:00.000Z" true)
                           (js "b") (Some (js "accepted")) sample_world))
             (js "accepted") eq_refl).
    + by_evaluation.
    + by_evaluation.
    + reflexivity.
Defined.

(** List on the sample store, without sort parameters and with
    [sortBy=priority]. *)
Lemma list_sort_order_witness :
  (Forall (λ q, is_Some (Date_parse (createdAt q))) (stored sample_world)
   ∧ ∃ l w',
       get_quotes (mkQuery None None None None) sample_world
       = (Ret (mkResponse 200 (PList l (length l))), w')
       ∧ l ≡ₚ filter (satisfies None None) (stored sample_world)
       ∧ StronglySorted newer_first l)
  ∧ (js "priority" ∉ field_names)
  ∧ ∃ w',
      get_quotes (mkQuery None None (Some (js "priority")) None) sample_world
      = (Ret (mkResponse 200 (PList (stored sample_world) 3)), w').
Proof.
  assert (Forall (λ q, is_Some (Date_parse (createdAt q))) (stored sample_world))
    as Hdates by (repeat constructor; vm_compute; eauto).
  assert (js "priority" ∉ field_names) as Hkey by by_evaluation.
  split; [split; [exact Hdates|]|split; [exact Hkey|]].
  - exact (proj1 (list_sort_order None None sample_world) Hdates).
  - exact (proj2 (list_sort_order None None sample_world) (js "priority") None Hkey).
Defined.

(** Delete, twice, of a record of the sample store. *)
Lemma delete_twice_witness :
  (NoDup (id <$> stored sample_world)
   ∧ js "b" ∈ id <$> stored sample_world
   ∧ env_write_ok (sample_env "" "2024-04-03T09:00:00.000Z" true) = true)
  ∧ ∃ i q w1,
      stored sample_world !! i = Some q ∧ id q = js "b"
      ∧ delete_quote (sample_env "" "2024-04-03T09:00:00.000Z" true) (js "b")
          sample_world
        = (Ret (mkResponse 200 (PMessage true "Quote deleted successfully")), w1)
      ∧ data_file w1 = Readable (delete i (stored sample_world))
      ∧ delete_quote (sample_env "" "2024-04-03T09:05:00.000Z" false) (js "b") w1
        = (Ret (mkResponse 404 (PMessage false "Quote not found")), w1).
Proof.
  assert (NoDup (id <$> stored sample_world)) as H1 by by_evaluation.
  assert (js "b" ∈ id <$> stored sample_world) as H2 by by_evaluation.
  split; [by repeat split|].
  exact (delete_twice (sample_env "" "2024-04-03T09:00:00.000Z" true)
           (sample_env "" "2024-04-03T09:05:00.000Z" false) (js "b")
           sample_world H1 H2 eq_refl).
Defined.

(** Create on the sample store when the disk refuses the write. *)
Lemma create_write_failure_witness :
  ((validateQuote jane).2 = []
   ∧ env_write_ok (sample_env "u1" "2024-04-01T09:00:00.000Z" false) = false)
  ∧ ∃ w',
      post_quotes (sample_env "u1" "2024-04-01T09:00:00.000Z" false) jane
        sample_world
      = (Ret (mkResponse 500 (PMessage false "Failed to save quote request")), w')
      ∧ data_file w' = data_file sample_world
      ∧ outbox w' = outbox sample_world
      ∧ (∀ req_id, (get_quote req_id w').1 = (get_quote req_id sample_world).1)
      ∧ (∀ query, (get_quotes query w').1 = (get_quotes query sample_world).1).
Proof.
  assert ((validateQuote jane).2 = []) as H1 by (vm_compute; reflexivity).
  split; [by split|].
  destruct (create_write_failure (sample_env "u1" "2024-04-01T09:00:00.000Z" false)
              jane sample_world H1 eq_refl)
    as (w' & Hpost & Hout & _ & Hrefused).
  destruct (Hrefused eq_refl) as (Hfile & Hget & Hlist).
  exists w'. repeat split; assumption.
Defined.

(** C7, the claim as stated fails: on a file system whose failing writes
    fail while the text is written, a Create of a valid submission answers
    500 and leaves a data file that cannot be read, so that List, which
    returned three records before, returns none afterwards. *)
Lemma create_write_failure_truncates :
  (validateQuote jane).2 = []
  ∧ env_write_ok (sample_env "u1" "2024-04-01T09:00:00.000Z" false) = false
  ∧ ∃ w',
      @post_quotes example_ValidatorLib truncating_disk
        (sample_env "u1" "2024-04-01T09:00:00.000Z" false) jane sample_world
      = (Ret (mkResponse 500 (PMessage false "Failed to save quote request")), w')
      ∧ data_file w' = Unreadable
      ∧ data_file w' ≠ data_file sample_world
      ∧ (get_quotes (mkQuery None None None None) sample_world).1
        = Ret (mkResponse 200
                 (PList [ sample_quote "b" "reviewed" "2024-03-01T08:00:00.000Z";
                          sample_quote "c" "new" "2024-02-10T17:45:12.500Z";
                          sample_quote "a" "new" "2024-01-15T10:30:00.000Z" ] 3))
      ∧ (get_quotes (mkQuery None None None None) w').1
        = Ret (mkResponse 200 (PList [] 0)).
Proof.
  split; [vm_compute; reflexivity|]. split; [reflexivity|].
  eexists. split; [vm_compute; reflexivity|].
  split; [reflexivity|]. split; [discriminate|].
  split; vm_compute; reflexivity.
Qed.


(** Create with a hyphen in the name. *)
Lemma name_charset_rejected_witness :
  (45 ∈ trim (js "Jean-Luc Roe") ∧ is_letter 45 = false ∧ is_space 45 = false)
  ∧ ∃ errors,
      post_quotes (sample_env "u1" "2024-04-01T09:00:00.000Z" true)
        (mkBody (js "Jean-Luc Roe") (js "jane@x.com") (js "+12025550143") None
           (js "website") (js "under-5k") (js "flexible")
           (js "Need a 5-page brochure site for my bakery"))
        sample_world
      = (Ret (mkResponse 400 (PValidation "Validation failed" errors)),
         sample_world)
      ∧ mkError "name" "Name can only contain letters and spaces" ∈ errors.
Proof.
  assert (45 ∈ trim (js "Jean-Luc Roe")) as Hin by by_evaluation.
  split; [by repeat split|].
  exact (name_charset_rejected (sample_env "u1" "2024-04-01T09:00:00.000Z" true)
           (mkBody (js "Jean-Luc Roe") (js "jane@x.com") (js "+12025550143") None
              (js "website") (js "under-5k") (js "flexible")
              (js "Need a 5-page brochure site for my bakery"))
           sample_world 45 Hin eq_refl eq_refl).
Defined.

(** Stats on the sample store changes nothing. *)
Lemma reads_change_nothing_witness :
  ((∃ query, GetStats = List query) ∨ (∃ req_id, GetStats = Get req_id)
   ∨ GetStats = GetStats)
  ∧ data_file
      (handle (sample_env "" "2024-04-01T09:00:00.000Z" true) GetStats
         sample_world).2
    = data_file sample_world.
Proof.
  assert ((∃ query, GetStats = List query) ∨ (∃ req_id, GetStats = Get req_id)
          ∨ GetStats = GetStats) as Hreq by (right; right; reflexivity).
  split; [exact Hreq|].
  exact (proj1 (reads_change_nothing
                  (sample_env "" "2024-04-01T09:00:00.000Z" true)
                  (sample_env "" "2024-04-01T09:00:00.000Z" true)
                  GetStats sample_world Hreq)).
Defined.

(** The read routes on a data file that cannot be read. *)
Lemma unreadable_served_as_empty_witness :
  data_file unreadable_world = Unreadable
  ∧ get_quotes (mkQuery None None None None) unreadable_world
    = (Ret (mkResponse 200 (PList [] 0)),
       mkWorld Unreadable ["Error reading quotes file:"%string] []).
Proof.
  split; [reflexivity|].
  exact (proj1 (unreadable_served_as_empty (mkQuery None None None None)
                  (js "a") unreadable_world eq_refl)).
Defined.

(** Get of a stored and of an unknown id on the sample store. *)
Lemma get_first_match_witness :
  (js "b" ∈ id <$> stored sample_world
   ∧ ∃ i q,
       stored sample_world !! i = Some q ∧ id q = js "b"
       ∧ (∀ j q', stored sample_world !! j = Some q' → (j < i)%nat →
                  id q' ≠ js "b")
       ∧ get_quote (js "b") sample_world
         = (Ret (mkResponse 200 (PQuote q)), after_read sample_world))
  ∧ (js "zzz" ∉ id <$> stored sample_world)
  ∧ get_quote (js "zzz") sample_world
    = (Ret (mkResponse 404 (PMessage false "Quote not found")),
       after_read sample_world).
Proof.
  assert (js "b" ∈ id <$> stored sample_world) as Hin by by_evaluation.
  assert (js "zzz" ∉ id <$> stored sample_world) as Hout by by_evaluation.
  split; [split; [exact Hin|]|split; [exact Hout|]].
  - exact (proj1 (get_first_match (js "b") sample_world) Hin).
  - exact (proj2 (get_first_match (js "zzz") sample_world) Hout).
Defined.

(** A Create that succeeds on the sample store. *)
Lemma create_appends_witness :
  ((validateQuote jane).2 = []
   ∧ env_write_ok (sample_env "u1" "2024-04-01T09:00:00.000Z" true) = true)
  ∧ ∃ w',
      post_quotes (sample_env "u1" "2024-04-01T09:00:00.000Z" true) jane
        sample_world
      = (Ret (mkResponse 201
                (PCreated "Quote request submitted successfully" (js "u1"))), w')
      ∧ data_file w'
        = Readable (stored sample_world
                    ++ [new_quote (sample_env "u1" "2024-04-01T09:00:00.000Z" true)
                          jane])
      ∧ get_stats w'
        = (Ret (mkResponse 200 (PStats (mkStats 4 3 1 0 0 0 0))), w').
Proof.
  assert ((validateQuote jane).2 = []) as H1 by (vm_compute; reflexivity).
  split; [by split|].
  exact (create_appends (sample_env "u1" "2024-04-01T09:00:00.000Z" true) jane
           sample_world H1 eq_refl).
Defined.


(** The counts after an UpdateStatus on the sample store. *)
Lemma update_moves_count_witness :
  (js "quoted" ∈ valid_statuses ∧ js "a" ∈ id <$> stored sample_world
   ∧ env_write_ok (sample_env "" "2024-04-02T09:00:00.000Z" true) = true)
  ∧ length
      (stored
         (patch_status (sample_env "" "2024-04-02T09:00:00.000Z" true) (js "a")
            (Some (js "quoted")) sample_world).2)
    = length (stored sample_world).
Proof.
  assert (js "quoted" ∈ valid_statuses) as H1 by by_evaluation.
  assert (js "a" ∈ id <$> stored sample_world) as H2 by by_evaluation.
  split; [by repeat split|].
  destruct (update_moves_count (sample_env "" "2024-04-02T09:00:00.000Z" true)
              (js "a") (js "quoted") sample_world H1 H2 eq_refl)
    as (i & q & _ & _ & Hlen & _).
  exact Hlen.
Defined.

(** A Delete that succeeds on the sample store. *)
Lemma delete_effect_witness :
  (js "b" ∈ id <$> stored sample_world
   ∧ env_write_ok (sample_env "" "2024-04-03T09:00:00.000Z" true) = true)
  ∧ length (stored sample_world)
    = S (length
           (stored
              (delete_quote (sample_env "" "2024-04-03T09:00:00.000Z" true)
                 (js "b") sample_world).2)).
Proof.
  assert (js "b" ∈ id <$> stored sample_world) as H1 by by_evaluation.
  split; [by split|].
  destruct (delete_effect (sample_env "" "2024-04-03T09:00:00.000Z" true)
              (js "b") sample_world H1 eq_refl)
    as (i & q & _ & _ & _ & _ & Hlen & _).
  exact Hlen.
Defined.

(** UpdateStatus and Delete on the sample store when the disk refuses the
    write. *)
Lemma mutation_write_failure_witness :
  (env_write_ok (sample_env "" "2024-04-03T09:00:00.000Z" false) = false
   ∧ js "b" ∈ id <$> stored sample_world)
  ∧ ∃ w',
      delete_quote (sample_env "" "2024-04-03T09:00:00.000Z" false) (js "b")
        sample_world
      = (Ret (mkResponse 500 (PMessage false "Failed to delete quote")), w')
      ∧ data_file w' = data_file sample_world
      ∧ outbox w' = outbox sample_world.
Proof.
  assert (js "b" ∈ id <$> stored sample_world) as H1 by by_evaluation.
  split; [by split|].
  exact (proj2 (mutation_write_failure
                  (sample_env "" "2024-04-03T09:00:00.000Z" false) (js "b")
                  sample_world eq_refl H1)).
Defined.

(** The sample run keeps the ids of the sample store distinct. *)
Lemma ids_stay_distinct_witness :
  (NoDup (id <$> stored sample_world) ∧ fresh_ids sample_requests sample_world)
  ∧ NoDup (id <$> stored (run sample_requests sample_world)).
Proof.
  assert (NoDup (id <$> stored sample_world)) as H1 by by_evaluation.
  assert (fresh_ids sample_requests sample_world) as H2.
  { simpl. repeat split; intros body [=]. subst. by_evaluation. }
  split; [by split|].
  exact (ids_stay_distinct sample_requests sample_world H1 H2).
Defined.

(** List after the sample run from the empty store. *)
Lemma reachable_list_newest_first_witness :
  valid_clocks sample_requests
  ∧ ∃ l w',
      get_quotes (mkQuery None None None None) (run sample_requests initial_world)
      = (Ret (mkResponse 200 (PList l (length l))), w')
      ∧ l ≡ₚ stored (run sample_requests initial_world)
      ∧ StronglySorted newer_first l.
Proof.
  assert (valid_clocks sample_requests) as H1.
  { unfold valid_clocks, sample_requests.
    repeat constructor; intros body [=]. vm_compute. eauto. }
  split; [exact H1|].
  exact (reachable_list_newest_first sample_requests H1).
Defined.

(** List of the sample store with [order=asc]. *)
Lemma list_ascending_witness :
  (js "asc" ≠ js "desc"
   ∧ Forall (λ q, is_Some (Date_parse (createdAt q))) (stored sample_world))
  ∧ ∃ l w',
      get_quotes (mkQuery None None None (Some (js "asc"))) sample_world
      = (Ret (mkResponse 200 (PList l (length l))), w')
      ∧ l ≡ₚ filter (satisfies None None) (stored sample_world)
      ∧ StronglySorted older_first l.
Proof.
  assert (js "asc" ≠ js "desc") as H1 by by_evaluation.
  assert (Forall (λ q, is_Some (Date_parse (createdAt q))) (stored sample_world))
    as H2 by (repeat constructor; vm_compute; eauto).
  split; [by split|].
  exact (list_ascending None None (js "asc") sample_world H1 H2).
Defined.

(** List of the sample store with [sortBy=name]. *)
Lemma list_undated_field_witness :
  (∀ q, q ∈ stored sample_world → new_Date (property (js "name") q) = None)
  ∧ ∃ w',
      get_quotes (mkQuery None None (Some (js "name")) None) sample_world
      = (Ret (mkResponse 200 (PList (stored sample_world) 3)), w').
Proof.
  assert (∀ q, q ∈ stored sample_world →
               new_Date (property (js "name") q) = None) as H1.
  { apply Forall_forall. repeat constructor. }
  split; [exact H1|].
  exact (list_undated_field_keeps_order None None None (js "name")
           sample_world H1).
Defined.

(** The request that the form sends for the sample form. *)
Lemma form_request_shape_witness :
  submit_form sample_form = Submit sample_form_body
  ∧ regex_test emailRegex (body_email sample_form_body) = true
  ∧ name (new_quote (sample_env "u1" "2024-04-01T09:00:00.000Z" true)
            sample_form_body)
    = body_name sample_form_body.
Proof.
  assert (submit_form sample_form = Submit sample_form_body) as H1
    by (vm_compute; reflexivity).
  split; [exact H1|].
  destruct (form_request_shape sample_form sample_form_body
              (sample_env "u1" "2024-04-01T09:00:00.000Z" true) H1)
    as (_ & Hemail & _ & _ & _ & Hname).
  split; [exact Hemail|exact Hname].
Defined.

(** The sample form leaves budget and timeline empty. *)
Lemma form_defaults_pass_witness :
  (submit_form sample_form = Submit sample_form_body
   ∧ truthy (form_budget sample_form) = false)
  ∧ ¬ field_fails "budget" sample_form_body.
Proof.
  assert (submit_form sample_form = Submit sample_form_body) as H1
    by (vm_compute; reflexivity).
  split; [by split|].
  exact (proj1 (form_defaults_pass sample_form sample_form_body H1) eq_refl).
Defined.

(** The sample form has no phone number. *)
Lemma form_without_phone_witness :
  (isMobilePhone [] = false
   ∧ submit_form sample_form = Submit sample_form_body
   ∧ truthy (form_phone sample_form) = false)
  ∧ ∃ errors,
      post_quotes (sample_env "u1" "2024-04-01T09:00:00.000Z" true)
        sample_form_body sample_world
      = (Ret (mkResponse 400 (PValidation "Validation failed" errors)),
         sample_world)
      ∧ mkError "phone" "Please provide a valid phone number" ∈ errors.
Proof.
  assert (submit_form sample_form = Submit sample_form_body) as H1
    by (vm_compute; reflexivity).
  split; [by repeat split|].
  exact (form_without_phone_rejected sample_form sample_form_body
           (sample_env "u1" "2024-04-01T09:00:00.000Z" true) sample_world
           eq_refl H1 eq_refl).
Defined.

(** The local filter and the server on the sample store, for the values
    [new] and [all]. *)
Lemma local_filter_agrees_witness :
  (plain (js "new") ∧ plain (js "all") ∧ js "new" ≠ [] ∧ js "all" ≠ [])
  ∧ list_quotes (client_query (js "new") (js "all")) (stored sample_world)
    ≡ₚ local_filter (js "new") (js "all") (stored sample_world).
Proof.
  assert (plain (js "new")) as H1 by by_evaluation.
  assert (plain (js "all")) as H2 by by_evaluation.
  assert (js "new" ≠ []) as H3 by by_evaluation.
  assert (js "all" ≠ []) as H4 by by_evaluation.
  split; [by repeat split|].
  exact (local_filter_agrees (js "new") (js "all") (stored sample_world)
           H1 H2 H3 H4).
Defined.

(** Two equal columns of the export. *)
Lemma csv_description_injective_witness :
  csv_description (js "5 pages") = csv_description (js "5 pages")
  ∧ js "5 pages" = js "5 pages".
Proof.
  split; [reflexivity|].
  exact (csv_description_injective (js "5 pages") (js "5 pages") eq_refl).
Defined.

(** The mail of a Create that succeeds on the sample store. *)
Lemma mail_exactly_on_201_witness :
  handle (sample_env "u1" "2024-04-01T09:00:00.000Z" true) (Create jane)
    sample_world
  = (Ret (mkResponse 201
            (PCreated "Quote request submitted successfully" (js "u1"))),
     mkWorld
       (Readable (stored sample_world
                  ++ [new_quote (sample_env "u1" "2024-04-01T09:00:00.000Z" true)
                        jane]))
       []
       [new_quote (sample_env "u1" "2024-04-01T09:00:00.000Z" true) jane])
  ∧ ∃ body,
      Create jane = Create body
      ∧ [new_quote (sample_env "u1" "2024-04-01T09:00:00.000Z" true) jane]
        = [] ++ [new_quote (sample_env "u1" "2024-04-01T09:00:00.000Z" true) body].
Proof.
  assert (handle (sample_env "u1" "2024-04-01T09:00:00.000Z" true) (Create jane)
            sample_world
          = (Ret (mkResponse 201
                    (PCreated "Quote request submitted successfully" (js "u1"))),
             mkWorld
               (Readable
                  (stored sample_world
                   ++ [new_quote (sample_env "u1" "2024-04-01T09:00:00.000Z" true)
                         jane]))
               []
               [new_quote (sample_env "u1" "2024-04-01T09:00:00.000Z" true) jane]))
    as Hrun by (vm_compute; reflexivity).
  split; [exact Hrun|].
  exact (mail_exactly_on_201 (sample_env "u1" "2024-04-01T09:00:00.000Z" true)
           (Create jane) sample_world _ _ Hrun).
Defined.

(** Two records of the same date, with a newer one stored between them. *)
Lemma list_sort_stable_witness :
  Forall (λ q, is_Some (Date_parse (createdAt q))) same_day_quotes
  ∧ filter (λ q, created_time q = Some 1705314600000%Z)
      (list_quotes (mkQuery None None None None) same_day_quotes)
    = [ sample_quote "a" "new" "2024-01-15T10:30:00.000Z";
        sample_quote "c" "new" "2024-01-15T10:30:00.000Z" ].
Proof.
  assert (Forall (λ q, is_Some (Date_parse (createdAt q))) same_day_quotes)
    as H1 by (repeat constructor; vm_compute; eauto).
  split; [exact H1|].
  exact (list_sort_stable None None None same_day_quotes 1705314600000%Z H1).
Defined.
End Examples.
